(** * area-selection: the interaction coordinator and its rectangle model

    A shallow embedding of [core.js] (class [Core]) and [area-selection.js]
    (class [AreaSelection]).

    Numbers.  JavaScript numbers are modelled as exact rationals [Q]; the
    results are compared with [==] ([Qeq]).  [Math.round] is
    [floor (x + 1/2)].  Non-finite numbers arise in option parsing, as the
    values [JNaN] and [JInf], and in [round], whose string arithmetic can
    yield [NaN]: a component of a value object is a [CropValue.num].

    Objects.  A JavaScript object used as a bag of named properties (the
    options object, a size object) is a [gmap string JsVal]; reading an
    absent property gives [JUndefined].

    Effects.  The instance is an explicit state record [Core]; callbacks
    and render requests are appended to its [effects] log in the order in
    which the code performs them; a [throw] is the [Throw] completion. *)

From Stdlib Require Import QArith Qround Qabs Qminmax Lqa Lia ZArith Ascii String.
From stdpp Require Import base strings pretty gmap.

Set Warnings "-register-all".
Local Open Scope Q_scope.

(** ** JavaScript values *)

Module Js.

Inductive JsVal : Type :=
| JUndefined
| JNull
| JBool (b : bool)
| JNum (q : Q)
| JNaN
| JInf (positive : bool)
| JStr (s : string)
| JFun (f : nat)
| JArr (l : list JsVal)
| JObj (o : gmap string JsVal).

Abbreviation JsObj := (gmap string JsVal).

(** What a [throw] carries: the code throws strings; the language itself
    raises [TypeError]. *)
Inductive Exn : Type :=
| ExnString (msg : string)
| TypeError.

Inductive Completion (A : Type) : Type :=
| Normal (a : A)
| Throw (e : Exn).
Arguments Normal {A} a.
Arguments Throw {A} e.

(** [o.k] on an object. *)
Definition getp (o : JsObj) (k : string) : JsVal := default JUndefined (o !! k).

(** [v.k] on a value.  The code reads properties only of values that
    [parseOptions] made objects; on any other value the model reads
    [undefined]. *)
Definition field (v : JsVal) (k : string) : JsVal :=
  match v with
  | JObj o => getp o k
  | _ => JUndefined
  end.

(** [v[i]]. *)
Definition index (v : JsVal) (i : nat) : JsVal :=
  match v with
  | JArr l => nth i l JUndefined
  | JObj o => getp o (pretty i)
  | JStr s => match String.get i s with
              | Some c => JStr (String c EmptyString)
              | None => JUndefined
              end
  | _ => JUndefined
  end.

(** ToBoolean. *)
Definition truthy (v : JsVal) : bool :=
  match v with
  | JUndefined | JNull | JNaN => false
  | JBool b => b
  | JNum q => negb (Qeq_bool q 0)
  | JInf _ => true
  | JStr s => negb (String.eqb s "")
  | JFun _ | JArr _ | JObj _ => true
  end.

(** [a || b]. *)
Definition jsOr (a b : JsVal) : JsVal := if truthy a then a else b.

(** [b / a] on numbers.  Operands that are not numbers give [JNaN]
    (string-to-number coercion is not modelled). *)
Definition jsDiv (b a : JsVal) : JsVal :=
  match b, a with
  | JNum y, JNum x =>
      if Qeq_bool x 0
      then (if Qeq_bool y 0 then JNaN else JInf (if Qle_bool 0 y then true else false))
      else JNum (y / x)
  | _, _ => JNaN
  end.

(** [v == s] for a string literal [s]. *)
Definition looseEqStr (v : JsVal) (s : string) : bool :=
  match v with
  | JStr t => String.eqb t s
  | _ => false
  end.

(** [Object.assign(target, source)]: every own property of [source] is
    written into [target]; the result is the mutated target. *)
Definition assign (target source : JsObj) : JsObj := source ∪ target.

Definition lowerAscii (c : ascii) : ascii :=
  let n := nat_of_ascii c in
  if ((65 <=? n)%nat && (n <=? 90)%nat)%bool then ascii_of_nat (n + 32) else c.

(** [s.toLowerCase()] on ASCII strings. *)
Fixpoint toLowerCase (s : string) : string :=
  match s with
  | EmptyString => EmptyString
  | String c r => String (lowerAscii c) (toLowerCase r)
  end.

(** [list.indexOf(s) === -1]. *)
Definition notIn (s : string) (l : list string) : bool :=
  negb (existsb (String.eqb s) l).

(** [Math.round]: the nearest integer, ties towards +infinity. *)
Definition Math_round (x : Q) : Z := Qfloor (x + (1 # 2)).

(** An option or geometry value read as a number: [ToNumber(null)] is [0];
    values that are not numbers are outside the modelled domain. *)
Definition toNumber (v : JsVal) : Q :=
  match v with
  | JNum q => q
  | _ => 0
  end.

(** A nullable number handed to the rectangle model. *)
Definition toBound (v : JsVal) : option Q :=
  match v with
  | JNum q => Some q
  | _ => None
  end.

End Js.
Import Js.

(** ** The rectangle model

    [core.js] imports the class [Box] from [box.js], which is not among
    the sources.  Every operation of this module is modelled from sections
    3, 4.1 and 4.2 of the specification and from the way [core.js] calls
    it. *)

Module Box.

Definition Point : Type := (Q * Q)%type.

(** Modelled from the spec: the state of the missing [Box] class, two
    corner points [(x1, y1)] and [(x2, y2)] that need not be ordered;
    [new Box(x1, y1, x2, y2)] is [new]. *)
Record Box : Type := new { x1 : Q; y1 : Q; x2 : Q; y2 : Q }.

Definition eq (a b : Box) : Prop :=
  x1 a == x1 b /\ y1 a == y1 b /\ x2 a == x2 b /\ y2 a == y2 b.

(** Modelled from the spec: [width()] of the missing [Box] class, the
    absolute difference of the corner coordinates. *)
Definition width (b : Box) : Q := Qabs (x2 b - x1 b).

(** Modelled from the spec: [height()] of the missing [Box] class, the
    absolute difference of the corner coordinates. *)
Definition height (b : Box) : Q := Qabs (y2 b - y1 b).

(** Modelled from the spec: [getAbsolutePoint([rx, ry])] of the missing
    [Box] class: [x1 + rx*(x2-x1)], [y1 + ry*(y2-y1)]. *)
Definition getAbsolutePoint (p : Point) (b : Box) : Point :=
  (x1 b + fst p * (x2 b - x1 b), y1 b + snd p * (y2 b - y1 b)).

(** Modelled from the spec: [move(x, y)] of the missing [Box] class.  Both
    corners are translated by the same delta and [null] leaves an axis
    unchanged (4.1); the delta of a call [move(a, b)] is [a] minus the
    current first corner (4.4: the call [move(pointer - offset)] translates
    by [(pointer - offset) - currentCorner]), which is also how [core.js]
    uses it ([move(0, null)] puts the left edge on [0]; [moveTo] "moves the
    crop region to a specified coordinate"). *)
Definition move (x y : option Q) (b : Box) : Box :=
  let dx := match x with Some a => a - x1 b | None => 0 end in
  let dy := match y with Some a => a - y1 b | None => 0 end in
  new (x1 b + dx) (y1 b + dy) (x2 b + dx) (y2 b + dy).

(** Modelled from the spec: [resize(width, height, anchor)] of the missing
    [Box] class: both corners are recomputed so that the rectangle has the
    given size while the absolute position of [anchor] is preserved. *)
Definition resize (w h : Q) (anchor : Point) (b : Box) : Box :=
  let '(ax, ay) := getAbsolutePoint anchor b in
  let nx1 := ax - fst anchor * w in
  let ny1 := ay - snd anchor * h in
  new nx1 ny1 (nx1 + w) (ny1 + h).

(** Modelled from the spec: [scale(factor, anchor)] of the missing [Box]
    class, [resize(width*factor, height*factor, anchor)]. *)
Definition scale (factor : Q) (anchor : Point) (b : Box) : Box :=
  resize (width b * factor) (height b * factor) anchor b.

(** The [mode] argument that [core.js] passes to [constrainToRatio]: the
    strings ['width'] and ['height']. *)
Inductive RatioMode : Type := ModeWidth | ModeHeight.

(** Modelled from the spec: [constrainToRatio(ratio, anchor, mode)] of the
    missing [Box] class.  The ratio is height/width; one dimension is
    recomputed from the other ([width*ratio] or [height/ratio]) and the
    rectangle is resized at the anchor.  Following 4.3, the mode that
    [core.js] passes for a vertical-only handle (['width']) derives the
    width from the height, and ['height'] derives the height from the
    width.  An absent ratio leaves the rectangle as it is.  The spec does
    not say what an omitted mode selects; the model takes ['height']. *)
Definition constrainToRatio (ratio : option Q) (anchor : Point)
    (mode : option RatioMode) (b : Box) : Box :=
  match ratio with
  | None => b
  | Some r =>
      match mode with
      | Some ModeWidth => resize (height b / r) (height b) anchor b
      | Some ModeHeight | None => resize (width b) (width b * r) anchor b
      end
  end.

(** Modelled from the spec: the clamping step of the missing
    [constrainToSize].  A value is clamped into [[lo, hi]]; an absent
    bound is no bound, and the upper bound is applied last. *)
Definition clampDim (v : Q) (lo hi : option Q) : Q :=
  let v1 := match lo with Some m => if Qlt_le_dec v m then m else v | None => v end in
  match hi with Some m => if Qlt_le_dec m v1 then m else v1 | None => v1 end.

(** Modelled from the spec: [constrainToSize(maxW, maxH, minW, minH,
    anchor, ratio)] of the missing [Box] class.  Width and height are
    clamped into their bounds; with a ratio, the other dimension is
    recomputed from a clamped one and re-checked against its own bound, so
    that a bound wins over the ratio; the rectangle is resized at the
    anchor. *)
Definition constrainToSize (maxW maxH minW minH : option Q) (anchor : Point)
    (ratio : option Q) (b : Box) : Box :=
  let w0 := width b in
  let h0 := height b in
  let w1 := clampDim w0 minW maxW in
  let h1 := match ratio with
            | Some r => if Qeq_bool w1 w0 then h0 else w1 * r
            | None => h0
            end in
  let h2 := clampDim h1 minH maxH in
  let w2 := match ratio with
            | Some r => if Qeq_bool h2 h1 then w1 else clampDim (h2 / r) minW maxW
            | None => w1
            end in
  resize w2 h2 anchor b.

(** Modelled from the spec: a step of the missing [constrainToBoundary].
    The largest extent the rectangle may have along one axis of length
    [bound] when the point at ratio [r] of it stays at coordinate [a]. *)
Definition maxExtent (a r bound : Q) : option Q :=
  let lo := if Qlt_le_dec 0 r then Some (a / r) else None in
  let hi := if Qlt_le_dec r 1 then Some ((bound - a) / (1 - r)) else None in
  match lo, hi with
  | Some u, Some v => Some (Qmin u v)
  | Some u, None => Some u
  | None, Some v => Some v
  | None, None => None
  end.

(** Modelled from the spec: a step of the missing [constrainToBoundary],
    the factor that reduces [extent] to [limit] when it exceeds it. *)
Definition fitFactor (extent : Q) (limit : option Q) : Q :=
  match limit with
  | Some m => if Qlt_le_dec m extent then m / extent else 1
  | None => 1
  end.

(** Modelled from the spec: [constrainToBoundary(boundaryWidth,
    boundaryHeight, anchor)] of the missing [Box] class.  A rectangle that
    exceeds the boundary is uniformly reduced, the anchor staying where it
    is, by the largest factor that makes it fit. *)
Definition constrainToBoundary (boundaryWidth boundaryHeight : Q)
    (anchor : Point) (b : Box) : Box :=
  let '(ax, ay) := getAbsolutePoint anchor b in
  let fx := fitFactor (width b) (maxExtent ax (fst anchor) boundaryWidth) in
  let fy := fitFactor (height b) (maxExtent ay (snd anchor) boundaryHeight) in
  scale (Qmin fx fy) anchor b.

End Box.

(** ** Handles *)

(** A handle as [core.js] uses it: [handle.position] and
    [handle.constraints], the latter in the order top, right, bottom,
    left. *)
Record Handle : Type := {
  position : Box.Point;
  constraints : list Z;
  direction : string
}.

Definition HANDLES : list Handle := [
  {| position := (0, 0);     constraints := [1; 0; 0; 1]%Z; direction := "nw" |};
  {| position := (1 # 2, 0); constraints := [1; 0; 0; 0]%Z; direction := "n" |};
  {| position := (1, 0);     constraints := [1; 1; 0; 0]%Z; direction := "ne" |};
  {| position := (1, 1 # 2); constraints := [0; 1; 0; 0]%Z; direction := "e" |};
  {| position := (1, 1);     constraints := [0; 1; 1; 0]%Z; direction := "se" |};
  {| position := (1 # 2, 1); constraints := [0; 0; 1; 0]%Z; direction := "s" |};
  {| position := (0, 1);     constraints := [0; 0; 1; 1]%Z; direction := "sw" |};
  {| position := (0, 1 # 2); constraints := [0; 0; 0; 1]%Z; direction := "w" |}
].

Definition SOUTHEAST_HANDLE_IDX : nat := 4.

(** [handle.constraints[i] === 1]. *)
Definition movable (h : Handle) (i : nat) : bool := (nth i (constraints h) 0 =? 1)%Z.

Definition TOP_MOVABLE (h : Handle) : bool := movable h 0.
Definition RIGHT_MOVABLE (h : Handle) : bool := movable h 1.
Definition BOTTOM_MOVABLE (h : Handle) : bool := movable h 2.
Definition LEFT_MOVABLE (h : Handle) : bool := movable h 3.
Definition MULTI_AXIS (h : Handle) : bool :=
  (LEFT_MOVABLE h || RIGHT_MOVABLE h) && (TOP_MOVABLE h || BOTTOM_MOVABLE h).

(** ** The page around the instance *)

(** What the code reads from the DOM while it runs:
    [selectionEl.getBoundingClientRect()] (the container),
    [selectionEl.offsetWidth/offsetHeight], and of the target element its
    natural size, its [width]/[height] and its bounding rectangle.  A
    natural size that is [undefined] is the falsy [0]. *)
Record Dom : Type := {
  containerLeft : Q;
  containerTop : Q;
  containerWidth : Q;
  containerHeight : Q;
  offsetWidth : Q;
  offsetHeight : Q;
  naturalWidth : Q;
  naturalHeight : Q;
  targetWidth : Q;
  targetHeight : Q;
  elementWidth : Q;
  elementHeight : Q
}.

(** ** Values handed to the callbacks *)

Module CropValue.
(** A component of a value object: a finite number, or [NaN], which only
    [round] produces. *)
Inductive num : Type :=
| Num (q : Q)
| NaN.
Record t : Type := mk { x : num; y : num; width : num; height : num }.
Definition numEq (a b : num) : Prop :=
  match a, b with
  | Num p, Num q => p == q
  | NaN, NaN => True
  | _, _ => False
  end.
Definition eq (a b : t) : Prop :=
  numEq (x a) (x b) /\ numEq (y a) (y b)
  /\ numEq (width a) (width b) /\ numEq (height a) (height b).
End CropValue.

Coercion CropValue.Num : Q >-> CropValue.num.

Inductive CallbackName : Type :=
| OnInitialize | OnSelectStart | OnSelectMove | OnSelectEnd.

(** What the instance does to the outside: a render request with the
    rounded position and size ([redraw]), a lifecycle callback invoked
    with [getValue()], and [onInitialize] invoked with the instance. *)
Inductive Effect : Type :=
| Redraw (x1 y1 width height : Z)
| Callback (name : CallbackName) (f : nat) (value : option CropValue.t)
| Initialized (f : nat).

(** ** The instance *)

Record ActiveHandle : Type := {
  handle : Handle;
  originPoint : Box.Point;
  originX : Q;
  originY : Q
}.

(** [this.options], [this.box], [this.activeHandle], [this.currentMove],
    the [tmpBox] variable of [attachOverlayEvents], whether the overlay's
    [mouseup]/[mousemove] listeners are registered on the document, and the
    effects performed so far. *)
Record Core : Type := {
  options : gmap string JsVal;
  box : Box.Box;
  activeHandle : option ActiveHandle;
  currentMove : option (Q * Q);
  tmpBox : option Box.Box;
  overlayListening : bool;
  effects : list Effect
}.

Definition set_options (o : gmap string JsVal) (st : Core) : Core :=
  {| options := o; box := box st; activeHandle := activeHandle st;
     currentMove := currentMove st; tmpBox := tmpBox st;
     overlayListening := overlayListening st; effects := effects st |}.

Definition set_box (b : Box.Box) (st : Core) : Core :=
  {| options := options st; box := b; activeHandle := activeHandle st;
     currentMove := currentMove st; tmpBox := tmpBox st;
     overlayListening := overlayListening st; effects := effects st |}.

Definition set_activeHandle (a : ActiveHandle) (st : Core) : Core :=
  {| options := options st; box := box st; activeHandle := Some a;
     currentMove := currentMove st; tmpBox := tmpBox st;
     overlayListening := overlayListening st; effects := effects st |}.

Definition set_currentMove (m : Q * Q) (st : Core) : Core :=
  {| options := options st; box := box st; activeHandle := activeHandle st;
     currentMove := Some m; tmpBox := tmpBox st;
     overlayListening := overlayListening st; effects := effects st |}.

Definition set_tmpBox (b : Box.Box) (st : Core) : Core :=
  {| options := options st; box := box st; activeHandle := activeHandle st;
     currentMove := currentMove st; tmpBox := Some b;
     overlayListening := overlayListening st; effects := effects st |}.

Definition set_overlayListening (l : bool) (st : Core) : Core :=
  {| options := options st; box := box st; activeHandle := activeHandle st;
     currentMove := currentMove st; tmpBox := tmpBox st;
     overlayListening := l; effects := effects st |}.

Definition perform (e : Effect) (st : Core) : Core :=
  {| options := options st; box := box st; activeHandle := activeHandle st;
     currentMove := currentMove st; tmpBox := tmpBox st;
     overlayListening := overlayListening st; effects := effects st ++ [e] |}.

(** ** Option parsing *)

Definition defaultValue (v d : JsVal) : JsVal :=
  match v with
  | JNull => d
  | _ => v
  end.

(** The three "Parse max/min/start size" blocks of [parseOptions]: they
    differ in the option read and in the default unit only. *)
Definition parseSize (v : JsVal) (defaultUnit : string) : JsVal :=
  match v with
  | JUndefined | JNull => JNull
  | _ => JObj {[ "width" := jsOr (index v 0) JNull;
                 "height" := jsOr (index v 1) JNull;
                 "unit" := jsOr (index v 2) (JStr defaultUnit) ]}
  end.

Definition parseAspectRatio (v : JsVal) : JsVal :=
  match v with
  | JNum _ | JNaN | JInf _ => v
  | JArr _ => jsDiv (index v 1) (index v 0)
  | _ => JNull
  end.

Definition parseCallback (v : JsVal) : JsVal :=
  match v with
  | JFun _ => v
  | _ => JNull
  end.

Definition parseReturnMode (v : JsVal) : Completion JsVal :=
  match v with
  | JUndefined => Normal JNull
  | JStr t =>
      let s := toLowerCase t in
      if notIn s ["real"; "ratio"; "raw"]
      then Throw (ExnString "Invalid return mode.")
      else Normal (JStr s)
  | _ => Throw TypeError
  end.

(** [Core.parseOptions(opts)].  The [convertToPixels] member of the result
    is the function [convertToPixels] below. *)
Definition parseOptions (opts : gmap string JsVal) : Completion (gmap string JsVal) :=
  let aspectRatio := parseAspectRatio (getp opts "aspectRatio") in
  let maxSize := parseSize (getp opts "maxSize") "px" in
  let minSize := parseSize (getp opts "minSize") "px" in
  let startSize := parseSize (getp opts "startSize") "%" in
  let onInitialize := parseCallback (getp opts "onInitialize") in
  let onSelectStart := parseCallback (getp opts "onSelectStart") in
  let onSelectEnd := parseCallback (getp opts "onSelectEnd") in
  let onSelectMove := parseCallback (getp opts "onSelectMove") in
  match parseReturnMode (getp opts "returnMode") with
  | Throw e => Throw e
  | Normal returnMode =>
      Normal {[
        "aspectRatio" := defaultValue aspectRatio JNull;
        "maxSize" := defaultValue maxSize (JObj {[ "width" := JNull; "height" := JNull ]});
        "minSize" := defaultValue minSize (JObj {[ "width" := JNull; "height" := JNull ]});
        "startSize" := defaultValue startSize
            (JObj {[ "width" := JNum 100; "height" := JNum 100; "unit" := JStr "%" ]});
        "returnMode" := defaultValue returnMode (JStr "real");
        "onInitialize" := defaultValue onInitialize JNull;
        "onSelectStart" := defaultValue onSelectStart JNull;
        "onSelectMove" := defaultValue onSelectMove JNull;
        "onSelectEnd" := defaultValue onSelectEnd JNull
      ]}
  end.

(** [(v / 100) * total] for a size entry that is not [null]. *)
Definition percentOf (total : Q) (v : JsVal) : JsVal :=
  match v with
  | JNull => JNull
  | JNum q => JNum ((q / 100) * total)
  | _ => JNaN
  end.

Definition convertSize (w h : Q) (v : JsVal) : JsVal :=
  match v with
  | JObj o =>
      let o' := if looseEqStr (getp o "unit") "%"
                then <["height" := percentOf h (getp o "height")]>
                       (<["width" := percentOf w (getp o "width")]> o)
                else o in
      JObj (delete "unit" o')
  | _ => v
  end.

Definition sizeKeys : list string := ["maxSize"; "minSize"; "startSize"].

(** [options.convertToPixels(container)]: the loop over [sizeKeys]. *)
Definition convertToPixels (d : Dom) (opts : gmap string JsVal) : gmap string JsVal :=
  foldl (fun o key => <[key := convertSize (offsetWidth d) (offsetHeight d) (getp o key)]> o)
        opts sizeKeys.

(** ** Value projection *)

(** Whether the string of a number is in exponent form ("1e-7",
    "1e+21"): when the number is not zero and its magnitude is below
    [10^-6], or when its magnitude is [10^21] or more.  Otherwise the
    string is the plain decimal expansion. *)
Definition exponentForm (v : Q) : bool :=
  negb (Qeq_bool v 0) && negb (Qle_bool (1 # 1000000) (Qabs v))
  || Qle_bool (inject_Z (10 ^ 21)) (Qabs v).

(** [round(value, decimals)] is
    [Number(Math.round(value + 'e' + decimals) + 'e-' + decimals)]: the
    string of [value] followed by an exponent.  Where that string is a
    plain decimal, the exponent shifts the decimal point, [Math.round]
    rounds, and the second exponent shifts the point back.  Where it is
    already in exponent form, the concatenation ("1e-7e3") is not a
    numeric string, [Math.round] gives [NaN] and so does the outer
    [Number]; likewise for the string of the rounded integer. *)
Definition round (value : Q) (decimals : nat) : CropValue.num :=
  if exponentForm value then CropValue.NaN
  else
    let shifted := inject_Z (Math_round (value * inject_Z (10 ^ Z.of_nat decimals))) in
    if exponentForm shifted then CropValue.NaN
    else CropValue.Num (shifted / inject_Z (10 ^ Z.of_nat decimals)).

(** [a || b] on numbers. *)
Definition qOr (a b : Q) : Q := if Qeq_bool a 0 then b else a.

(** [getValue(mode)].  The 'real' and 'ratio' branches divide by the
    width and height of [this.targetEl.getBoundingClientRect()], the
    rendered size of the target element ([elementWidth], [elementHeight]),
    which what is proved of the quotients takes to be non-zero. *)
Definition getValue (mode : JsVal) (d : Dom) (st : Core) : option CropValue.t :=
  let mode := match mode with
              | JUndefined | JNull => getp (options st) "returnMode"
              | _ => mode
              end in
  let b := box st in
  if looseEqStr mode "real" then
    let actualWidth := qOr (naturalWidth d) (targetWidth d) in
    let actualHeight := qOr (naturalHeight d) (targetHeight d) in
    let factorX := qOr actualWidth (elementWidth d) / elementWidth d in
    let factorY := qOr actualHeight (elementHeight d) / elementHeight d in
    Some (CropValue.mk (inject_Z (Math_round (Box.x1 b * factorX)))
                       (inject_Z (Math_round (Box.y1 b * factorY)))
                       (inject_Z (Math_round (Box.width b * factorX)))
                       (inject_Z (Math_round (Box.height b * factorY))))
  else if looseEqStr mode "ratio" then
    Some (CropValue.mk (round (Box.x1 b / elementWidth d) 3)
                       (round (Box.y1 b / elementHeight d) 3)
                       (round (Box.width b / elementWidth d) 3)
                       (round (Box.height b / elementHeight d) 3))
  else if looseEqStr mode "raw" then
    Some (CropValue.mk (inject_Z (Math_round (Box.x1 b)))
                       (inject_Z (Math_round (Box.y1 b)))
                       (inject_Z (Math_round (Box.width b)))
                       (inject_Z (Math_round (Box.height b))))
  else None.

(** [redraw()]: the rounded position and size handed to
    [requestAnimationFrame]. *)
Definition redraw (st : Core) : Core :=
  let b := box st in
  perform (Redraw (Math_round (Box.x1 b)) (Math_round (Box.y1 b))
                  (Math_round (Box.width b)) (Math_round (Box.height b))) st.

Definition callbackKey (name : CallbackName) : string :=
  match name with
  | OnInitialize => "onInitialize"
  | OnSelectStart => "onSelectStart"
  | OnSelectMove => "onSelectMove"
  | OnSelectEnd => "onSelectEnd"
  end.

(** [if (this.options.cb !== null) { this.options.cb(this.getValue()); }]:
    [null] skips the call, a function is called (the call is recorded),
    anything else is not callable. *)
Definition fire (name : CallbackName) (d : Dom) (st : Core) : Completion Core :=
  match getp (options st) (callbackKey name) with
  | JNull => Normal st
  | JFun f => Normal (perform (Callback name f (getValue JNull d st)) st)
  | _ => Throw TypeError
  end.

(** A listener run by [dispatchEvent]: an exception ends the listener and
    is not propagated; what it did before stays done. *)
Definition listener (before : Core) (c : Completion Core) : Core :=
  match c with
  | Normal st => st
  | Throw _ => before
  end.

(** ** Method calls on a rectangle under construction *)

(** A call of a [Box] method, with its arguments. *)
Inductive BoxCall : Type :=
| CallConstrainToRatio (ratio : option Q) (origin : Box.Point) (mode : option Box.RatioMode)
| CallConstrainToSize (maxW maxH minW minH : option Q) (origin : Box.Point) (ratio : option Q)
| CallConstrainToBoundary (boundaryWidth boundaryHeight : Q) (origin : Box.Point)
| CallMove (x y : option Q).

Definition applyCall (c : BoxCall) (b : Box.Box) : Box.Box :=
  match c with
  | CallConstrainToRatio r o m => Box.constrainToRatio r o m b
  | CallConstrainToSize maxW maxH minW minH o r => Box.constrainToSize maxW maxH minW minH o r b
  | CallConstrainToBoundary w h o => Box.constrainToBoundary w h o b
  | CallMove x y => Box.move x y b
  end.

(** Straight-line code working on one mutable [Box] object: from the
    object's state to a result, the object's new state and the method
    calls made on it, in order. *)
Definition BoxProg (A : Type) : Type := Box.Box -> A * Box.Box * list BoxCall.

#[global] Instance BoxProg_ret : MRet BoxProg := fun A a b => (a, b, []).
#[global] Instance BoxProg_bind : MBind BoxProg := fun A B k m b =>
  let '(a, b1, l1) := m b in
  let '(r, b2, l2) := k a b1 in
  (r, b2, l1 ++ l2).

Definition call (c : BoxCall) : BoxProg unit := fun b => (tt, applyCall c b, [c]).
Definition this_box : BoxProg Box.Box := fun b => (b, b, []).

Definition resultBox {A} (p : BoxProg A) (b : Box.Box) : Box.Box := snd (fst (p b)).
Definition callsOf {A} (p : BoxProg A) (b : Box.Box) : list BoxCall := snd (p b).




(** ** Initialisation *)

Definition center : Box.Point := (1 # 2, 1 # 2).

(** The body of [initializeBox(opts)] after [new Box(0, 0, width, height)]. *)
Definition initializeBoxProg (opts : gmap string JsVal) (d : Dom) : BoxProg unit :=
  call (CallConstrainToRatio (toBound (getp opts "aspectRatio")) center None);;
  let min := getp opts "minSize" in
  let max := getp opts "maxSize" in
  call (CallConstrainToSize (toBound (field max "width")) (toBound (field max "height"))
                            (toBound (field min "width")) (toBound (field min "height"))
                            center (toBound (getp opts "aspectRatio")));;
  let parentWidth := offsetWidth d in
  let parentHeight := offsetHeight d in
  call (CallConstrainToBoundary parentWidth parentHeight center);;
  b ← this_box;
  let x := (offsetWidth d / 2) - (Box.width b / 2) in
  let y := (offsetHeight d / 2) - (Box.height b / 2) in
  call (CallMove (Some x) (Some y)).

Definition initialBox (opts : gmap string JsVal) : Box.Box :=
  let width := toNumber (field (getp opts "startSize") "width") in
  let height := toNumber (field (getp opts "startSize") "height") in
  Box.new 0 0 width height.

Definition initializeBox (opts : gmap string JsVal) (d : Dom) : Box.Box :=
  resultBox (initializeBoxProg opts d) (initialBox opts).

(** [new AreaSelection(element, options)] for an element that is found
    and loaded: [parseOptions], then [initialize]. *)
Definition construct (opts : gmap string JsVal) (d : Dom) : Completion Core :=
  match parseOptions opts with
  | Throw e => Throw e
  | Normal o =>
      let o := convertToPixels d o in
      let st := redraw {| options := o; box := initializeBox o d;
                          activeHandle := None; currentMove := None;
                          tmpBox := None; overlayListening := false;
                          effects := [] |} in
      match getp o "onInitialize" with
      | JNull => Normal st
      | JFun f => Normal (perform (Initialized f) st)
      | _ => Throw TypeError
      end
  end.

(** ** Handle-driven resize *)

(** [a < b] on numbers. *)
Definition jsLt (a b : Q) : bool := if Qlt_le_dec a b then true else false.

(** [onHandleMoveStart(e)] with [e.detail.handle = h]. *)
Definition onHandleMoveStart (h : Handle) (d : Dom) (st : Core) : Core :=
  let originPoint := (1 - fst (position h), 1 - snd (position h)) in
  let '(originX, originY) := Box.getAbsolutePoint originPoint (box st) in
  let st1 := set_activeHandle {| handle := h; originPoint := originPoint;
                                 originX := originX; originY := originY |} st in
  listener st1 (fire OnSelectStart d st1).

(** "Ensure mouse is within the boundaries". *)
Definition clampMouse (m bound : Q) : Q :=
  if jsLt m 0 then 0 else if jsLt bound m then bound else m.

(** "Apply movement to respective sides according to the handle's
    constraint values": the four edge values [x1, y1, x2, y2]. *)
Definition handleEdges (a : ActiveHandle) (b : Box.Box) (mouseX mouseY : Q) : Q * Q * Q * Q :=
  let h := handle a in
  let x1 := if LEFT_MOVABLE h || RIGHT_MOVABLE h then originX a else Box.x1 b in
  let x2 := if LEFT_MOVABLE h || RIGHT_MOVABLE h then originX a else Box.x2 b in
  let y1 := if TOP_MOVABLE h || BOTTOM_MOVABLE h then originY a else Box.y1 b in
  let y2 := if TOP_MOVABLE h || BOTTOM_MOVABLE h then originY a else Box.y2 b in
  let x1 := if LEFT_MOVABLE h then mouseX else x1 in
  let x2 := if RIGHT_MOVABLE h then mouseX else x2 in
  let y1 := if TOP_MOVABLE h then mouseY else y1 in
  let y2 := if BOTTOM_MOVABLE h then mouseY else y2 in
  (x1, y1, x2, y2).

(** "Check if the user dragged past the origin point":
    [[isFlippedX, isFlippedY]]. *)
Definition isFlipped (a : ActiveHandle) (mouseX mouseY : Q) : bool * bool :=
  let h := handle a in
  let isFlippedX :=
    if LEFT_MOVABLE h || RIGHT_MOVABLE h
    then (if LEFT_MOVABLE h then jsLt (originX a) mouseX else jsLt mouseX (originX a))
    else false in
  let isFlippedY :=
    if TOP_MOVABLE h || BOTTOM_MOVABLE h
    then (if TOP_MOVABLE h then jsLt (originY a) mouseY else jsLt mouseY (originY a))
    else false in
  (isFlippedX, isFlippedY).

(** "If it is flipped, we swap the coordinates and flip the origin point":
    the edge values and the origin after the two [if]s. *)
Definition applyFlip (flipped : bool * bool) (edges : Q * Q * Q * Q) (origin : Box.Point)
    : (Q * Q * Q * Q) * Box.Point :=
  let '(x1, y1, x2, y2) := edges in
  let '(isFlippedX, isFlippedY) := flipped in
  let '(x1, x2, ox) := if isFlippedX then (x2, x1, 1 - fst origin) else (x1, x2, fst origin) in
  let '(y1, y2, oy) := if isFlippedY then (y2, y1, 1 - snd origin) else (y1, y2, snd origin) in
  ((x1, y1, x2, y2), (ox, oy)).

Definition boxOfEdges (edges : Q * Q * Q * Q) : Box.Box :=
  let '(x1, y1, x2, y2) := edges in Box.new x1 y1 x2 y2.

(** [isVerticalMovement] of the "Maintain aspect ratio" block. *)
Definition isVerticalMovement (h : Handle) (ratio mouseY : Q) (b : Box.Box) : bool :=
  if MULTI_AXIS h
  then jsLt (Box.y1 b + ratio * Box.width b) mouseY
       || jsLt mouseY (Box.y2 b - ratio * Box.width b)
  else if TOP_MOVABLE h || BOTTOM_MOVABLE h then true
  else false.

Definition ratioMode (h : Handle) (ratio mouseY : Q) (b : Box.Box) : Box.RatioMode :=
  if isVerticalMovement h ratio mouseY b then Box.ModeWidth else Box.ModeHeight.

(** The part of [onHandleMoveMoving] that follows [new Box(x1, y1, x2,
    y2)]: "Maintain aspect ratio", "Maintain minimum/maximum size",
    "Constrain to boundary". *)
Definition handleMoveProg (opts : gmap string JsVal) (d : Dom) (h : Handle)
    (origin : Box.Point) (mouseY : Q) : BoxProg unit :=
  b ← this_box;
  (if truthy (getp opts "aspectRatio")
   then let ratio := getp opts "aspectRatio" in
        call (CallConstrainToRatio (toBound ratio) origin
                                   (Some (ratioMode h (toNumber ratio) mouseY b)))
   else mret tt);;
  let min := getp opts "minSize" in
  let max := getp opts "maxSize" in
  call (CallConstrainToSize (toBound (field max "width")) (toBound (field max "height"))
                            (toBound (field min "width")) (toBound (field min "height"))
                            origin (toBound (getp opts "aspectRatio")));;
  let parentWidth := offsetWidth d in
  let parentHeight := offsetHeight d in
  call (CallConstrainToBoundary parentWidth parentHeight origin).

(** The pointer position relative to the container, kept inside it. *)
Definition localMouse (d : Dom) (mouseX mouseY : Q) : Q * Q :=
  (clampMouse (mouseX - containerLeft d) (containerWidth d),
   clampMouse (mouseY - containerTop d) (containerHeight d)).

(** The rectangle handed to [new Box] by [onHandleMoveMoving], and the
    (possibly mirrored) origin that goes with it. *)
Definition handleMoveNewBox (a : ActiveHandle) (b : Box.Box) (d : Dom) (mouseX mouseY : Q)
    : Box.Box * Box.Point :=
  let '(mx, my) := localMouse d mouseX mouseY in
  let '(edges, origin) :=
    applyFlip (isFlipped a mx my) (handleEdges a b mx my) (originPoint a) in
  (boxOfEdges edges, origin).

(** [onHandleMoveMoving(e)] with [e.detail = {mouseX, mouseY}].  Without an
    active handle the listener fails on its first read of it. *)
Definition onHandleMoveMoving (mouseX mouseY : Q) (d : Dom) (st : Core) : Core :=
  match activeHandle st with
  | None => st
  | Some a =>
      let '(_, my) := localMouse d mouseX mouseY in
      let '(fresh, origin) := handleMoveNewBox a (box st) d mouseX mouseY in
      let b := resultBox (handleMoveProg (options st) d (handle a) origin my) fresh in
      let st1 := redraw (set_box b st) in
      listener st1 (fire OnSelectMove d st1)
  end.

(** [onHandleMoveEnd(e)]. *)
Definition onHandleMoveEnd (d : Dom) (st : Core) : Core :=
  listener st (fire OnSelectEnd d st).

(** ** Region drag *)

(** [onRegionMoveStart(e)]. *)
Definition onRegionMoveStart (mouseX mouseY : Q) (d : Dom) (st : Core) : Core :=
  let mouseX := mouseX - containerLeft d in
  let mouseY := mouseY - containerTop d in
  let st1 := set_currentMove (mouseX - Box.x1 (box st), mouseY - Box.y1 (box st)) st in
  listener st1 (fire OnSelectStart d st1).

(** "Ensure box is within the boundaries": the four [if]s of
    [onRegionMoveMoving], in order. *)
Definition regionClamp (d : Dom) (b : Box.Box) : Box.Box :=
  let b := if jsLt (Box.x1 b) 0 then Box.move (Some 0) None b else b in
  let b := if jsLt (containerWidth d) (Box.x2 b)
           then Box.move (Some (containerWidth d - Box.width b)) None b else b in
  let b := if jsLt (Box.y1 b) 0 then Box.move None (Some 0) b else b in
  let b := if jsLt (containerHeight d) (Box.y2 b)
           then Box.move None (Some (containerHeight d - Box.height b)) b else b in
  b.

(** [this.box.move(mouseX - offsetX, mouseY - offsetY)] of
    [onRegionMoveMoving]. *)
Definition regionTranslate (offset : Q * Q) (d : Dom) (mouseX mouseY : Q) (b : Box.Box) : Box.Box :=
  let mouseX := mouseX - containerLeft d in
  let mouseY := mouseY - containerTop d in
  Box.move (Some (mouseX - fst offset)) (Some (mouseY - snd offset)) b.

(** [onRegionMoveMoving(e)].  Without a [currentMove] the listener fails
    on its destructuring. *)
Definition onRegionMoveMoving (mouseX mouseY : Q) (d : Dom) (st : Core) : Core :=
  match currentMove st with
  | None => st
  | Some offset =>
      let b := regionClamp d (regionTranslate offset d mouseX mouseY (box st)) in
      let st1 := redraw (set_box b st) in
      listener st1 (fire OnSelectMove d st1)
  end.

(** [onRegionMoveEnd(e)]. *)
Definition onRegionMoveEnd (d : Dom) (st : Core) : Core :=
  listener st (fire OnSelectEnd d st).

(** ** Overlay-driven creation of a new region *)

(** [onMouseDown] of [attachOverlayEvents].  The far corner of the fresh
    rectangle is [mouseX + 1], [mouseY + 1]: in exact arithmetic its width
    and height are 1, whereas on the doubles of the source
    [(mouseX + 1) - mouseX] can differ from 1 in the last bits when
    [mouseX] is not an integer.  What is proved of [onMouseUp]'s test
    therefore takes the measured size as a hypothesis. *)
Definition overlayMouseDown (clientX clientY : Q) (d : Dom) (st : Core) : Core :=
  let st := set_overlayListening true st in
  let mouseX := clientX - containerLeft d in
  let mouseY := clientY - containerTop d in
  let st := set_tmpBox (box st) st in
  let st := set_box (Box.new mouseX mouseY (mouseX + 1) (mouseY + 1)) st in
  match HANDLES !! SOUTHEAST_HANDLE_IDX with
  | Some h => onHandleMoveStart h d st
  | None => st
  end.

(** [onMouseMove] of [attachOverlayEvents]; it is registered by
    [onMouseDown] and removed by [onMouseUp]. *)
Definition overlayMouseMove (clientX clientY : Q) (d : Dom) (st : Core) : Core :=
  if overlayListening st then onHandleMoveMoving clientX clientY d st else st.

(** [onMouseUp] of [attachOverlayEvents]. *)
Definition overlayMouseUp (d : Dom) (st : Core) : Core :=
  if overlayListening st then
    let st := set_overlayListening false st in
    if Qeq_bool (Box.width (box st)) 1 && Qeq_bool (Box.height (box st)) 1
    then match tmpBox st with
         | Some saved => set_box saved st
         | None => st
         end
    else onHandleMoveEnd d st
  else st.

(** ** Events *)

Inductive Event : Type :=
| HandleStart (h : Handle)
| HandleMove (mouseX mouseY : Q)
| HandleEnd
| RegionStart (mouseX mouseY : Q)
| RegionMove (mouseX mouseY : Q)
| RegionEnd
| OverlayMouseDown (clientX clientY : Q)
| OverlayMouseMove (clientX clientY : Q)
| OverlayMouseUp.

Definition step (d : Dom) (st : Core) (e : Event) : Core :=
  match e with
  | HandleStart h => onHandleMoveStart h d st
  | HandleMove x y => onHandleMoveMoving x y d st
  | HandleEnd => onHandleMoveEnd d st
  | RegionStart x y => onRegionMoveStart x y d st
  | RegionMove x y => onRegionMoveMoving x y d st
  | RegionEnd => onRegionMoveEnd d st
  | OverlayMouseDown x y => overlayMouseDown x y d st
  | OverlayMouseMove x y => overlayMouseMove x y d st
  | OverlayMouseUp => overlayMouseUp d st
  end.

Definition run (d : Dom) (st : Core) (es : list Event) : Core := foldl (step d) st es.

(** ** The public methods of [AreaSelection] *)

(** What a method hands back: the instance ([return this]) or nothing. *)
Inductive Returned : Type := ReturnsThis | ReturnsUndefined.

(** "Call the callback" and [return this], the common tail of [moveTo],
    [resizeTo], [scaleBy] and [reset]. *)
Definition callbackAndReturn (d : Dom) (st : Core) : Completion Returned * Core :=
  match fire OnSelectEnd d st with
  | Normal st' => (Normal ReturnsThis, st')
  | Throw e => (Throw e, st)
  end.

Definition moveTo (x y : option Q) (d : Dom) (st : Core) : Completion Returned * Core :=
  callbackAndReturn d (redraw (set_box (Box.move x y (box st)) st)).





(** [setOptions(opts)].  [Object.assign] writes into [this.options] before
    [parseOptions] reads the merged object. *)
Definition setOptions (opts : gmap string JsVal) (d : Dom) (st : Core)
    : Completion Returned * Core :=
  let st := set_options (assign (options st) opts) st in
  match parseOptions (options st) with
  | Throw e => (Throw e, st)
  | Normal o =>
      let st := set_options o st in
      let st := set_box (initializeBox (options st) d) st in
      (Normal ReturnsUndefined, redraw st)
  end.

(** ** A sample page and instance *)

(** A 100x100 container at the page origin showing a 200x200 image. *)
Definition page100 : Dom :=
  {| containerLeft := 0; containerTop := 0;
     containerWidth := 100; containerHeight := 100;
     offsetWidth := 100; offsetHeight := 100;
     naturalWidth := 200; naturalHeight := 200;
     targetWidth := 100; targetHeight := 100;
     elementWidth := 100; elementHeight := 100 |}.

Definition sampleOptions : gmap string JsVal :=
  {[ "startSize" := JArr [JNum 50; JNum 50; JStr "px"];
     "returnMode" := JStr "raw";
     "onSelectStart" := JFun 1;
     "onSelectMove" := JFun 2;
     "onSelectEnd" := JFun 3 ]}.

Definition blankCore : Core :=
  {| options := ∅; box := Box.new 0 0 0 0; activeHandle := None;
     currentMove := None; tmpBox := None; overlayListening := false;
     effects := [] |}.

(** [new AreaSelection(img, sampleOptions)] on [page100]: a 50x50
    rectangle in the middle of the container. *)
Definition sampleCore : Core :=
  match construct sampleOptions page100 with
  | Normal st => st
  | Throw _ => blankCore
  end.

(** The options object that parsing yields, when it does not throw. *)
Definition parsedOptions (opts : gmap string JsVal) : gmap string JsVal :=
  match parseOptions opts with
  | Normal o => o
  | Throw _ => ∅
  end.

(** [{maxSize: [0, 50]}]: a maximum size whose width entry is zero. *)
Definition zeroMaxWidthOptions : gmap string JsVal :=
  {[ "maxSize" := JArr [JNum 0; JNum 50] ]}.

(** The south handle. *)
Definition southHandle : Handle :=
  {| position := (1 # 2, 1); constraints := [0; 0; 1; 0]%Z; direction := "s" |}.

(** A drag of the south handle of the 50x50 rectangle in the middle of
    [page100]: the origin is the middle of the top edge. *)
Definition southDrag : ActiveHandle :=
  {| handle := southHandle; originPoint := (1 # 2, 0); originX := 50; originY := 25 |}.




(** The render request that [redraw] makes for a rectangle. *)
Definition redrawOf (b : Box.Box) : Effect :=
  Redraw (Math_round (Box.x1 b)) (Math_round (Box.y1 b))
         (Math_round (Box.width b)) (Math_round (Box.height b)).

(** Replaying recorded calls on the rectangle they started from. *)
Definition replay (b : Box.Box) (l : list BoxCall) : Box.Box :=
  foldl (fun b c => applyCall c b) b l.

(** The callback invocation that [fire] records, if any. *)
Definition notification (name : CallbackName) (d : Dom) (st : Core) : list Effect :=
  match getp (options st) (callbackKey name) with
  | JFun f => [Callback name f (getValue JNull d st)]
  | _ => []
  end.

(** The [mousemove] events of one overlay gesture. *)
Definition overlayMoves (moves : list (Q * Q)) : list Event :=
  map (fun m => OverlayMouseMove (fst m) (snd m)) moves.

(** ** Vocabulary of the further properties *)

(** What [parseOptions] guarantees of the object it returns: the return
    mode is one of the three lower-case names, every callback is [null]
    or a function, and every size is an object. *)
Definition wellFormedOptions (o : gmap string JsVal) : Prop :=
  (getp o "returnMode" = JStr "real" \/ getp o "returnMode" = JStr "ratio"
   \/ getp o "returnMode" = JStr "raw")
  /\ (forall name, getp o (callbackKey name) = JNull
                   \/ exists f, getp o (callbackKey name) = JFun f)
  /\ (forall key, key ∈ sizeKeys -> exists m, getp o key = JObj m).

(** A size object as the program builds them: no properties besides
    [width], [height] and [unit]. *)
Definition sizeObject (v : JsVal) : Prop :=
  exists m : gmap string JsVal,
    v = JObj m /\ forall k, k <> "width" -> k <> "height" -> k <> "unit" -> m !! k = None.

(** The unit that [parseOptions] gives a size without one: '%' for the
    start size, 'px' for the bounds. *)
Definition defaultUnit (key : string) : string :=
  if String.eqb key "startSize" then "%" else "px".

(** The scale factor of the 'real' mode along one axis is 1: the target
    is rendered at its natural size, or it has no natural size and its
    [width] ([height]) is absent or the rendered one. *)
Definition unscaled (natural attr rendered : Q) : Prop :=
  ~ rendered == 0
  /\ (natural == rendered
      \/ (natural == 0 /\ (attr == rendered \/ attr == 0))).

(** A 100x100 container showing a 100x100 image at its natural size. *)
Definition pageNatural : Dom :=
  {| containerLeft := 0; containerTop := 0;
     containerWidth := 100; containerHeight := 100;
     offsetWidth := 100; offsetHeight := 100;
     naturalWidth := 100; naturalHeight := 100;
     targetWidth := 100; targetHeight := 100;
     elementWidth := 100; elementHeight := 100 |}.

(** [{startSize: [50, 50, '%']}]. *)
Definition halfSizeOptions : gmap string JsVal :=
  {[ "startSize" := JArr [JNum 50; JNum 50; JStr "%"] ]}.

(** [{aspectRatio: [16, 9]}]. *)
Definition wideOptions : gmap string JsVal :=
  {[ "aspectRatio" := JArr [JNum 16; JNum 9] ]}.

(** What [round(q, 3)] makes of a quotient [q] between 0 and 1: [NaN]
    when [q] is positive and below [10^-6], and otherwise a multiple of
    1/1000 between 0 and 1 within 1/2000 of [q]. *)
Definition ratioComponent (c : CropValue.num) (q : Q) : Prop :=
  match c with
  | CropValue.NaN => 0 < q /\ q < 1 # 1000000
  | CropValue.Num r =>
      (q == 0 \/ 1 # 1000000 <= q)
      /\ 0 <= r /\ r <= 1
      /\ (exists n : Z, r == n # 1000)
      /\ Qabs (r - q) <= 1 # 2000
  end.

(** * Properties *)

(** ** Basic facts about effects and the state *)

Lemma fire_box name d st st' : fire name d st = Normal st' -> box st' = box st.
Proof.
  unfold fire. destruct (getp (options st) (callbackKey name)); intros H;
    inversion H; reflexivity.
Qed.

Lemma listener_fire_box name d st : box (listener st (fire name d st)) = box st.
Proof.
  destruct (fire name d st) as [st'|e] eqn:E; simpl; [|reflexivity].
  eapply fire_box; eassumption.
Qed.

Lemma listener_fire_options name d st : options (listener st (fire name d st)) = options st.
Proof.
  unfold fire. destruct (getp (options st) (callbackKey name)); reflexivity.
Qed.

Lemma initializeBox_replay opts d :
  initializeBox opts d
  = replay (initialBox opts) (callsOf (initializeBoxProg opts d) (initialBox opts)).
Proof. reflexivity. Qed.


(** ** C1: the order of the constraint operations *)


(** ** C2: flips *)

Lemma jsLt_true a b : jsLt a b = true <-> a < b.
Proof.
  unfold jsLt. destruct (Qlt_le_dec a b) as [H|H]; split; intros H'; try easy.
  exfalso. apply (Qle_not_lt _ _ H H').
Qed.

Lemma jsLt_false a b : jsLt a b = false <-> b <= a.
Proof.
  unfold jsLt. destruct (Qlt_le_dec a b) as [H|H]; split; intros H'; try easy.
  exfalso. apply (Qle_not_lt _ _ H' H).
Qed.

Lemma width_nonneg b : 0 <= Box.width b.
Proof. apply Qabs_nonneg. Qed.

Lemma height_nonneg b : 0 <= Box.height b.
Proof. apply Qabs_nonneg. Qed.

Ltac case_jsLt :=
  repeat match goal with
  | |- context [jsLt ?a ?b] =>
      let E := fresh "E" in
      destruct (jsLt a b) eqn:E;
      [apply jsLt_true in E | apply jsLt_false in E]
  end.

(** C2.  In a handle-drag step, with [pre] the rectangle of the edge
    values before the flip test and [post], [origin'] the rectangle and
    origin handed on: the horizontal flip happens exactly when the pointer
    has crossed the captured anchor (pointer right of it for a
    left-movable edge, left of it for a right-movable one), and likewise
    vertically; a flipped axis has its two corner values swapped and its
    origin ratio replaced by one minus itself, an axis that is not flipped
    is left alone; the absolute position of the origin is the same before
    and after; [width()] and [height()] are non-negative and on a movable
    axis the first corner is not beyond the second. *)
Theorem flip_swaps_corners_and_mirrors_anchor
    (a : ActiveHandle) (b : Box.Box) (d : Dom) (mouseX mouseY : Q) :
  let h := handle a in
  let mx := fst (localMouse d mouseX mouseY) in
  let my := snd (localMouse d mouseX mouseY) in
  let pre := boxOfEdges (handleEdges a b mx my) in
  let flippedX := fst (isFlipped a mx my) in
  let flippedY := snd (isFlipped a mx my) in
  let post := fst (handleMoveNewBox a b d mouseX mouseY) in
  let origin' := snd (handleMoveNewBox a b d mouseX mouseY) in
  (flippedX = true <->
     (LEFT_MOVABLE h = true /\ originX a < mx)
     \/ (LEFT_MOVABLE h = false /\ RIGHT_MOVABLE h = true /\ mx < originX a))
  /\ (flippedY = true <->
     (TOP_MOVABLE h = true /\ originY a < my)
     \/ (TOP_MOVABLE h = false /\ BOTTOM_MOVABLE h = true /\ my < originY a))
  /\ (if flippedX
      then Box.x1 post = Box.x2 pre /\ Box.x2 post = Box.x1 pre
           /\ fst origin' = 1 - fst (originPoint a)
      else Box.x1 post = Box.x1 pre /\ Box.x2 post = Box.x2 pre
           /\ fst origin' = fst (originPoint a))
  /\ (if flippedY
      then Box.y1 post = Box.y2 pre /\ Box.y2 post = Box.y1 pre
           /\ snd origin' = 1 - snd (originPoint a)
      else Box.y1 post = Box.y1 pre /\ Box.y2 post = Box.y2 pre
           /\ snd origin' = snd (originPoint a))
  /\ fst (Box.getAbsolutePoint origin' post) == fst (Box.getAbsolutePoint (originPoint a) pre)
  /\ snd (Box.getAbsolutePoint origin' post) == snd (Box.getAbsolutePoint (originPoint a) pre)
  /\ 0 <= Box.width post /\ 0 <= Box.height post
  /\ (LEFT_MOVABLE h || RIGHT_MOVABLE h = true -> Box.x1 post <= Box.x2 post)
  /\ (TOP_MOVABLE h || BOTTOM_MOVABLE h = true -> Box.y1 post <= Box.y2 post).
Proof.
  cbv zeta. unfold handleMoveNewBox.
  destruct (localMouse d mouseX mouseY) as [mx my]. cbn [fst snd].
  unfold isFlipped, handleEdges, applyFlip, boxOfEdges.
  destruct (originPoint a) as [ox oy]. cbn [fst snd].
  repeat split.
  all: try apply width_nonneg; try apply height_nonneg.
  all: destruct (LEFT_MOVABLE (handle a)), (RIGHT_MOVABLE (handle a)),
         (TOP_MOVABLE (handle a)), (BOTTOM_MOVABLE (handle a)); cbn [orb fst snd].
  all: case_jsLt; cbn [fst snd Box.x1 Box.x2 Box.y1 Box.y2 Box.getAbsolutePoint].
  all: try solve [ intuition (try discriminate; try lra; auto with qarith)
                 | repeat split; reflexivity
                 | ring
                 | lra
                 | intros _; lra
                 | intros; discriminate ].
Qed.

(** ** C5: region drag *)

Lemma move_extent_x x y b :
  Box.x2 (Box.move x y b) - Box.x1 (Box.move x y b) == Box.x2 b - Box.x1 b.
Proof. unfold Box.move; cbn [Box.x1 Box.x2]. destruct x; ring. Qed.

Lemma move_extent_y x y b :
  Box.y2 (Box.move x y b) - Box.y1 (Box.move x y b) == Box.y2 b - Box.y1 b.
Proof. unfold Box.move; cbn [Box.y1 Box.y2]. destruct y; ring. Qed.

Lemma move_width x y b : Box.width (Box.move x y b) == Box.width b.
Proof. unfold Box.width. apply Qabs_wd, move_extent_x. Qed.

Lemma move_height x y b : Box.height (Box.move x y b) == Box.height b.
Proof. unfold Box.height. apply Qabs_wd, move_extent_y. Qed.

Lemma regionClamp_extent d b :
  Box.x2 (regionClamp d b) - Box.x1 (regionClamp d b) == Box.x2 b - Box.x1 b
  /\ Box.y2 (regionClamp d b) - Box.y1 (regionClamp d b) == Box.y2 b - Box.y1 b.
Proof.
  unfold regionClamp.
  repeat match goal with
  | |- context [if jsLt ?u ?v then _ else _] => destruct (jsLt u v)
  end;
  repeat first [rewrite move_extent_x | rewrite move_extent_y]; split; reflexivity.
Qed.

Lemma regionClamp_size d b :
  Box.width (regionClamp d b) == Box.width b
  /\ Box.height (regionClamp d b) == Box.height b.
Proof.
  destruct (regionClamp_extent d b) as [Hx Hy].
  unfold Box.width, Box.height. split; apply Qabs_wd; assumption.
Qed.

Ltac clamp_cases :=
  repeat (cbn [Box.x1 Box.x2 Box.y1 Box.y2] in *;
          match goal with
          | |- context [jsLt ?a ?b] =>
              let E := fresh "E" in
              destruct (jsLt a b) eqn:E;
              [apply jsLt_true in E | apply jsLt_false in E]
          end);
  cbn [Box.x1 Box.x2 Box.y1 Box.y2] in *.

(** What the four comparisons do to an ordered rectangle that is not
    larger than the container, horizontally. *)
Lemma regionClamp_x d b :
  (0 <= Box.x1 b -> Box.x2 b <= containerWidth d ->
     Box.x1 (regionClamp d b) == Box.x1 b)
  /\ (Box.x1 b < 0 -> Box.x2 b - Box.x1 b <= containerWidth d ->
     Box.x1 (regionClamp d b) == 0)
  /\ (0 <= Box.x1 b -> containerWidth d < Box.x2 b -> Box.x1 b <= Box.x2 b ->
     Box.x2 (regionClamp d b) == containerWidth d).
Proof.
  unfold regionClamp.
  repeat split; intros.
  all: destruct b as [bx1 by1 bx2 by2]; cbn [Box.x1 Box.x2 Box.y1 Box.y2] in *.
  all: unfold Box.move, Box.width; clamp_cases.
  all: try lra.
  all: try (rewrite Qabs_pos by lra; lra).
Qed.

Lemma regionClamp_y d b :
  (0 <= Box.y1 b -> Box.y2 b <= containerHeight d ->
     Box.y1 (regionClamp d b) == Box.y1 b)
  /\ (Box.y1 b < 0 -> Box.y2 b - Box.y1 b <= containerHeight d ->
     Box.y1 (regionClamp d b) == 0)
  /\ (0 <= Box.y1 b -> containerHeight d < Box.y2 b -> Box.y1 b <= Box.y2 b ->
     Box.y2 (regionClamp d b) == containerHeight d).
Proof.
  unfold regionClamp.
  repeat split; intros.
  all: destruct b as [bx1 by1 bx2 by2]; cbn [Box.x1 Box.x2 Box.y1 Box.y2] in *.
  all: unfold Box.move, Box.height; clamp_cases.
  all: try lra.
  all: try (rewrite Qabs_pos by lra; lra).
Qed.

(** C5.  A region-drag move step first translates the rectangle so that
    its first corner is the pointer (relative to the container) minus the
    offset captured at the start, keeping its size; then the four edge
    comparisons correct the position only: the clamped rectangle has the
    same signed extents, hence the same [width()] and [height()], as the
    translated one and as the rectangle before the step.  An edge inside
    its bound is not touched; a left/top edge below [0] is put on [0] and
    a right/bottom edge beyond the container is put on the container's
    width/height (for an ordered rectangle that fits the container). *)
Theorem region_move_translates_then_clamps_position
    (d : Dom) (st : Core) (mouseX mouseY : Q) (offset : Q * Q) :
  currentMove st = Some offset ->
  let moved := regionTranslate offset d mouseX mouseY (box st) in
  let clamped := regionClamp d moved in
  box (onRegionMoveMoving mouseX mouseY d st) = clamped
  /\ Box.x1 moved == (mouseX - containerLeft d) - fst offset
  /\ Box.y1 moved == (mouseY - containerTop d) - snd offset
  /\ Box.width moved == Box.width (box st)
  /\ Box.height moved == Box.height (box st)
  /\ Box.x2 clamped - Box.x1 clamped == Box.x2 moved - Box.x1 moved
  /\ Box.y2 clamped - Box.y1 clamped == Box.y2 moved - Box.y1 moved
  /\ Box.width clamped == Box.width moved
  /\ Box.height clamped == Box.height moved
  /\ (0 <= Box.x1 moved -> Box.x2 moved <= containerWidth d ->
        Box.x1 clamped == Box.x1 moved)
  /\ (Box.x1 moved < 0 -> Box.x2 moved - Box.x1 moved <= containerWidth d ->
        Box.x1 clamped == 0)
  /\ (0 <= Box.x1 moved -> containerWidth d < Box.x2 moved ->
        Box.x1 moved <= Box.x2 moved -> Box.x2 clamped == containerWidth d)
  /\ (0 <= Box.y1 moved -> Box.y2 moved <= containerHeight d ->
        Box.y1 clamped == Box.y1 moved)
  /\ (Box.y1 moved < 0 -> Box.y2 moved - Box.y1 moved <= containerHeight d ->
        Box.y1 clamped == 0)
  /\ (0 <= Box.y1 moved -> containerHeight d < Box.y2 moved ->
        Box.y1 moved <= Box.y2 moved -> Box.y2 clamped == containerHeight d).
Proof.
  intros Hm moved clamped.
  split.
  { unfold onRegionMoveMoving. rewrite Hm. rewrite listener_fire_box. reflexivity. }
  split.
  { subst moved. unfold regionTranslate, Box.move. cbn [Box.x1]. ring. }
  split.
  { subst moved. unfold regionTranslate, Box.move. cbn [Box.y1]. ring. }
  split; [apply move_width|]. split; [apply move_height|].
  destruct (regionClamp_extent d moved) as [Ex Ey].
  destruct (regionClamp_size d moved) as [Sx Sy].
  destruct (regionClamp_x d moved) as (X1 & X2 & X3).
  destruct (regionClamp_y d moved) as (Y1 & Y2 & Y3).
  repeat split; assumption.
Qed.

(** ** Frame facts: what a callback and a handle move leave alone *)

Lemma listener_fire_frame name d st :
  let st' := listener st (fire name d st) in
  options st' = options st /\ box st' = box st
  /\ activeHandle st' = activeHandle st /\ currentMove st' = currentMove st
  /\ tmpBox st' = tmpBox st /\ overlayListening st' = overlayListening st.
Proof.
  unfold fire. destruct (getp (options st) (callbackKey name)); cbn; auto 10.
Qed.

Lemma listener_fire_effects name d st :
  effects (listener st (fire name d st)) = effects st ++ notification name d st.
Proof.
  unfold fire, notification.
  destruct (getp (options st) (callbackKey name)); cbn; rewrite ?app_nil_r; reflexivity.
Qed.

Lemma onHandleMoveMoving_frame x y d st :
  let st' := onHandleMoveMoving x y d st in
  options st' = options st /\ tmpBox st' = tmpBox st
  /\ overlayListening st' = overlayListening st.
Proof.
  unfold onHandleMoveMoving. destruct (activeHandle st) as [a|]; [|cbn; auto].
  destruct (localMouse d x y) as [mx my].
  destruct (handleMoveNewBox a (box st) d x y) as [fresh origin].
  cbv zeta.
  match goal with |- context [listener ?s (fire ?n d ?s)] =>
    destruct (listener_fire_frame n d s) as (Ho & _ & _ & _ & Ht & Hl) end.
  rewrite Ho, Ht, Hl. cbn. auto.
Qed.

Lemma run_cons d st e es : run d st (e :: es) = run d (step d st e) es.
Proof. reflexivity. Qed.

Lemma overlayMoves_frame d moves st :
  overlayListening st = true ->
  let st' := run d st (overlayMoves moves) in
  options st' = options st /\ tmpBox st' = tmpBox st /\ overlayListening st' = true.
Proof.
  revert st. induction moves as [|m moves IH]; intros st Hl; [cbn; auto|].
  change (overlayMoves (m :: moves))
    with (OverlayMouseMove (fst m) (snd m) :: overlayMoves moves).
  cbv zeta. rewrite run_cons. cbn [step]. unfold overlayMouseMove. rewrite Hl.
  destruct (onHandleMoveMoving_frame (fst m) (snd m) d st) as (Ho & Ht & Hl').
  rewrite Hl in Hl'.
  destruct (IH _ Hl') as (Ho2 & Ht2 & Hl2).
  rewrite Ho2, Ht2, Hl2, Ho, Ht. auto.
Qed.

Lemma onHandleMoveStart_frame h d st :
  let st' := onHandleMoveStart h d st in
  options st' = options st /\ box st' = box st /\ tmpBox st' = tmpBox st
  /\ overlayListening st' = overlayListening st.
Proof.
  unfold onHandleMoveStart.
  destruct (Box.getAbsolutePoint _ (box st)) as [ox oy]. cbv zeta.
  match goal with |- context [listener ?s (fire ?n d ?s)] =>
    destruct (listener_fire_frame n d s) as (Ho & Hb & _ & _ & Ht & Hl) end.
  rewrite Ho, Hb, Ht, Hl. cbn. auto.
Qed.

Lemma getValue_ext mode d st st' :
  options st' = options st -> box st' = box st ->
  getValue mode d st' = getValue mode d st.
Proof. intros Ho Hb. unfold getValue. rewrite Ho, Hb. reflexivity. Qed.

Lemma notification_ext name d st st' :
  options st' = options st -> box st' = box st ->
  notification name d st' = notification name d st.
Proof.
  intros Ho Hb. unfold notification. rewrite Ho.
  rewrite (getValue_ext JNull d st st' Ho Hb). reflexivity.
Qed.

Lemma notification_fun name d st f :
  getp (options st) (callbackKey name) = JFun f ->
  notification name d st = [Callback name f (getValue JNull d st)].
Proof. intros H. unfold notification. rewrite H. reflexivity. Qed.

Lemma notification_null name d st :
  getp (options st) (callbackKey name) = JNull -> notification name d st = [].
Proof. intros H. unfold notification. rewrite H. reflexivity. Qed.

Lemma onHandleMoveStart_effects h d st :
  effects (onHandleMoveStart h d st)
  = effects st ++ notification OnSelectStart d (onHandleMoveStart h d st).
Proof.
  destruct (onHandleMoveStart_frame h d st) as (Ho & Hb & _ & _).
  rewrite (notification_ext _ d st _ Ho Hb).
  unfold onHandleMoveStart.
  destruct (Box.getAbsolutePoint _ (box st)) as [ox oy]. cbv zeta.
  rewrite listener_fire_effects. reflexivity.
Qed.

Lemma onHandleMoveEnd_effects d st :
  effects (onHandleMoveEnd d st) = effects st ++ notification OnSelectEnd d st.
Proof. apply listener_fire_effects. Qed.

Lemma overlayMouseDown_frame x y d st :
  let down := overlayMouseDown x y d st in
  options down = options st /\ tmpBox down = Some (box st)
  /\ overlayListening down = true
  /\ box down = Box.new (x - containerLeft d) (y - containerTop d)
                        (x - containerLeft d + 1) (y - containerTop d + 1)
  /\ effects down = effects st ++ notification OnSelectStart d down.
Proof.
  unfold overlayMouseDown. cbn [lookup list_lookup HANDLES SOUTHEAST_HANDLE_IDX].
  match goal with |- context [onHandleMoveStart ?h d ?s] =>
    destruct (onHandleMoveStart_frame h d s) as (Ho & Hb & Ht & Hl);
    pose proof (onHandleMoveStart_effects h d s) as He end.
  cbv zeta. rewrite Ho, Hb, Ht, Hl, He. cbn. auto.
Qed.

(** ** C3: a click on the overlay without a drag *)

(** C3, as the code has it.  Take any overlay gesture: pointer-down at
    [(x, y)], any pointer moves, pointer-up.  The synthetic resize start
    at pointer-down fires [onSelectStart] when it is configured, with the
    snapshot of the fresh 1x1 rectangle.  At pointer-up: if the rectangle
    is exactly 1x1, the live rectangle becomes the one saved at
    pointer-down and pointer-up fires nothing (no [onSelectEnd]);
    otherwise the rectangle stays and the gesture ends as a resize end,
    firing [onSelectEnd] with the current snapshot when it is configured. *)
Theorem overlay_click_restores_and_skips_onSelectEnd
    (d : Dom) (st : Core) (x y : Q) (moves : list (Q * Q)) :
  let down := overlayMouseDown x y d st in
  let before_up := run d down (overlayMoves moves) in
  let final := overlayMouseUp d before_up in
  (forall f, getp (options st) "onSelectStart" = JFun f ->
     effects down = effects st ++ [Callback OnSelectStart f (getValue JNull d down)])
  /\ (Box.width (box before_up) == 1 /\ Box.height (box before_up) == 1 ->
      box final = box st /\ effects final = effects before_up)
  /\ (~ (Box.width (box before_up) == 1 /\ Box.height (box before_up) == 1) ->
      box final = box before_up
      /\ (forall f, getp (options st) "onSelectEnd" = JFun f ->
            effects final
            = effects before_up ++ [Callback OnSelectEnd f (getValue JNull d final)])
      /\ (getp (options st) "onSelectEnd" = JNull -> effects final = effects before_up)).
Proof.
  intros down before_up final.
  destruct (overlayMouseDown_frame x y d st) as (Ho & Ht & Hl & Hb & He).
  fold down in Ho, Ht, Hl, Hb, He.
  destruct (overlayMoves_frame d moves down Hl) as (Ho2 & Ht2 & Hl2).
  fold before_up in Ho2, Ht2, Hl2.
  split.
  { intros f Hf. rewrite He. f_equal. apply notification_fun.
    rewrite Ho. exact Hf. }
  subst final. unfold overlayMouseUp. rewrite Hl2.
  cbn [box set_overlayListening tmpBox]. rewrite Ht2, Ht.
  split.
  - intros [Hw Hh].
    apply Qeq_bool_iff in Hw. apply Qeq_bool_iff in Hh. rewrite Hw, Hh.
    cbn. auto.
  - intros Hn.
    destruct (Qeq_bool (Box.width (box before_up)) 1 &&
              Qeq_bool (Box.height (box before_up)) 1) eqn:E.
    { exfalso. apply Hn. apply andb_prop in E as [E1 E2].
      split; apply Qeq_bool_iff; assumption. }
    set (up := set_overlayListening false before_up).
    assert (Hbox : box (onHandleMoveEnd d up) = box before_up)
      by (unfold onHandleMoveEnd; rewrite listener_fire_box; reflexivity).
    assert (Hopt : options (onHandleMoveEnd d up) = options up)
      by (unfold onHandleMoveEnd; apply listener_fire_options).
    split; [exact Hbox|].
    rewrite onHandleMoveEnd_effects. cbn [effects set_overlayListening up].
    split.
    + intros f Hf. f_equal.
      rewrite (notification_fun OnSelectEnd d up f).
      * f_equal. f_equal. symmetry. apply getValue_ext; [exact Hopt | exact Hbox].
      * cbn [options set_overlayListening callbackKey up]. rewrite Ho2, Ho. exact Hf.
    + intros Hf. rewrite notification_null; [apply app_nil_r|].
      cbn [options set_overlayListening callbackKey up]. rewrite Ho2, Ho. exact Hf.
Qed.

(** C3 as stated fails.  On [sampleCore] (callbacks configured), a click
    on the overlay at (40, 40) without any move ends with the rectangle
    still 1x1 and restores the saved rectangle, yet the gesture has fired
    [onSelectStart] (at pointer-down, with the 1x1 rectangle). *)
Lemma overlay_click_fires_onSelectStart :
  let down := overlayMouseDown 40 40 page100 sampleCore in
  let final := run page100 sampleCore [OverlayMouseDown 40 40; OverlayMouseUp] in
  (Box.width (box down) == 1 /\ Box.height (box down) == 1)
  /\ box final = box sampleCore
  /\ effects final
     = effects sampleCore ++ [Callback OnSelectStart 1 (Some (CropValue.mk 40 40 1 1))]
  /\ effects final <> effects sampleCore.
Proof.
  cbv zeta. split; [split; vm_compute; reflexivity|].
  split; [vm_compute; reflexivity|].
  assert (E : effects (run page100 sampleCore [OverlayMouseDown 40 40; OverlayMouseUp])
              = effects sampleCore
                ++ [Callback OnSelectStart 1 (Some (CropValue.mk 40 40 1 1))])
    by (vm_compute; reflexivity).
  split; [exact E|].
  rewrite E. intros H. apply (f_equal length) in H.
  rewrite length_app in H. cbn [length] in H. lia.
Qed.

(** ** C4: an invalid return mode *)

Lemma getp_lookup (o : gmap string JsVal) k v : o !! k = Some v -> getp o k = v.
Proof. intros H. unfold getp. rewrite H. reflexivity. Qed.

Lemma getp_assign_source (target source : gmap string JsVal) k v :
  source !! k = Some v -> getp (assign target source) k = v.
Proof.
  intros H. apply getp_lookup. unfold assign.
  apply lookup_union_Some_l. exact H.
Qed.

Lemma parseOptions_invalid_returnMode (o : gmap string JsVal) s :
  getp o "returnMode" = JStr s ->
  notIn (toLowerCase s) ["real"; "ratio"; "raw"] = true ->
  parseOptions o = Throw (ExnString "Invalid return mode.").
Proof.
  intros Hs Hbad. unfold parseOptions. rewrite Hs. unfold parseReturnMode.
  rewrite Hbad. reflexivity.
Qed.

(** What a configuration call given a return mode that is a string other
    than 'real', 'ratio' or 'raw' (in any letter case) does: it throws
    "Invalid return mode." during the call.  The constructor then yields
    no instance.  [setOptions] then neither re-initialises the rectangle
    nor redraws nor notifies, and the drag state is as before; but
    [Object.assign(this.options, opts)] has run before [parseOptions]
    threw and nothing undoes it, so the instance's options object holds
    the unparsed merge of the prior and the supplied options, and the
    return mode stored is the rejected string. *)
Lemma invalid_returnMode_throws_after_merging
    (opts : gmap string JsVal) (s : string) :
  opts !! "returnMode" = Some (JStr s) ->
  notIn (toLowerCase s) ["real"; "ratio"; "raw"] = true ->
  parseOptions opts = Throw (ExnString "Invalid return mode.")
  /\ (forall d, construct opts d = Throw (ExnString "Invalid return mode."))
  /\ (forall d st,
        let r := setOptions opts d st in
        fst r = Throw (ExnString "Invalid return mode.")
        /\ box (snd r) = box st
        /\ effects (snd r) = effects st
        /\ activeHandle (snd r) = activeHandle st
        /\ currentMove (snd r) = currentMove st
        /\ tmpBox (snd r) = tmpBox st
        /\ overlayListening (snd r) = overlayListening st
        /\ options (snd r) = assign (options st) opts
        /\ getp (options (snd r)) "returnMode" = JStr s).
Proof.
  intros Hs Hbad.
  assert (Hp : parseOptions opts = Throw (ExnString "Invalid return mode."))
    by (apply (parseOptions_invalid_returnMode opts s); [apply getp_lookup, Hs | exact Hbad]).
  split; [exact Hp|]. split.
  - intros d. unfold construct. rewrite Hp. reflexivity.
  - intros d st. cbv zeta. unfold setOptions. cbn [options set_options].
    rewrite (parseOptions_invalid_returnMode (assign (options st) opts) s);
      [| apply getp_assign_source, Hs | exact Hbad].
    cbn. repeat split; try reflexivity.
    apply getp_assign_source, Hs.
Qed.

(** C4.  The code at [setOptions({returnMode: 'bogus'})] on [sampleCore],
    an instance whose return mode is 'raw'.  The call throws
    "Invalid return mode." and neither re-initialises the rectangle nor
    redraws nor notifies.  The options, however, are not left as the prior
    valid configuration: the in-place merge that precedes the check has
    stored the rejected return mode 'bogus' in the instance's options, and
    [getValue()], which returned a value before the call, returns
    [undefined] after it. *)
Theorem setOptions_invalid_returnMode_changes_options :
  let r := setOptions {[ "returnMode" := JStr "bogus" ]} page100 sampleCore in
  fst r = Throw (ExnString "Invalid return mode.")
  /\ box (snd r) = box sampleCore
  /\ effects (snd r) = effects sampleCore
  /\ getp (options sampleCore) "returnMode" = JStr "raw"
  /\ getp (options (snd r)) "returnMode" = JStr "bogus"
  /\ options (snd r) <> options sampleCore
  /\ getValue JUndefined page100 sampleCore <> None
  /\ getValue JUndefined page100 (snd r) = None.
Proof.
  cbv zeta.
  assert (E1 : getp (options sampleCore) "returnMode" = JStr "raw")
    by (vm_compute; reflexivity).
  assert (E2 : getp (options (snd (setOptions {[ "returnMode" := JStr "bogus" ]}
                                               page100 sampleCore))) "returnMode"
               = JStr "bogus")
    by (vm_compute; reflexivity).
  split; [vm_compute; reflexivity|].
  split; [reflexivity|]. split; [reflexivity|].
  split; [exact E1|]. split; [exact E2|]. split.
  - intros H. rewrite H, E1 in E2. discriminate E2.
  - split.
    + unfold getValue. rewrite E1. cbn [looseEqStr]. discriminate.
    + unfold getValue. rewrite E2. reflexivity.
Qed.

(** ** C10: a zero size entry *)

Lemma parseOptions_size (opts o : gmap string JsVal) key :
  key ∈ sizeKeys ->
  parseOptions opts = Normal o ->
  exists u dflt, getp o key = defaultValue (parseSize (getp opts key) u) dflt.
Proof.
  intros Hk Hp. unfold parseOptions in Hp.
  destruct (parseReturnMode (getp opts "returnMode")) as [rm|e]; [|discriminate].
  injection Hp as <-.
  unfold sizeKeys in Hk. rewrite !elem_of_cons in Hk. rewrite elem_of_nil in Hk.
  destruct Hk as [-> | [-> | [-> | []]]]; eexists _, _; unfold getp at 1;
    simplify_map_eq; reflexivity.
Qed.

Lemma parseSize_entries v u :
  v <> JUndefined -> v <> JNull ->
  parseSize v u = JObj {[ "width" := jsOr (index v 0) JNull;
                          "height" := jsOr (index v 1) JNull;
                          "unit" := jsOr (index v 2) (JStr u) ]}.
Proof. intros H1 H2. destruct v; try reflexivity; congruence. Qed.

Lemma jsOr_zero q d : q == 0 -> jsOr (JNum q) d = d.
Proof.
  intros H. unfold jsOr, truthy. apply Qeq_bool_iff in H. rewrite H. reflexivity.
Qed.

Lemma convertToPixels_size d (o : gmap string JsVal) key :
  key ∈ sizeKeys ->
  getp (convertToPixels d o) key
  = convertSize (offsetWidth d) (offsetHeight d) (getp o key).
Proof.
  intros Hk. unfold sizeKeys in Hk. rewrite !elem_of_cons in Hk. rewrite elem_of_nil in Hk.
  unfold convertToPixels, sizeKeys. cbn [foldl].
  destruct Hk as [-> | [-> | [-> | []]]]; unfold getp; simplify_map_eq; reflexivity.
Qed.

Lemma convertSize_null_entry w h (m : gmap string JsVal) k :
  k = "width" \/ k = "height" ->
  getp m k = JNull ->
  field (convertSize w h (JObj m)) k = JNull.
Proof.
  intros Hk Hn. unfold convertSize, field.
  destruct (looseEqStr (getp m "unit") "%").
  - destruct Hk as [-> | ->]; unfold getp in *; simplify_map_eq;
      try rewrite Hn; reflexivity.
  - destruct Hk as [-> | ->]; unfold getp in *; simplify_map_eq; exact Hn.
Qed.

Lemma zero_entry_null (opts o : gmap string JsVal) key l i k q :
  key ∈ sizeKeys -> parseOptions opts = Normal o -> getp opts key = JArr l ->
  (i = 0%nat /\ k = "width") \/ (i = 1%nat /\ k = "height") ->
  nth i l JUndefined = JNum q -> q == 0 ->
  field (getp o key) k = JNull
  /\ forall d, field (getp (convertToPixels d o) key) k = JNull.
Proof.
  intros Hk Hp Hv Hik Hn Hq.
  destruct (parseOptions_size opts o key Hk Hp) as (u & dflt & Ho).
  rewrite Hv in Ho. cbn [parseSize defaultValue index] in Ho.
  assert (Hf : field (getp o key) k = JNull).
  { rewrite Ho. unfold field, getp.
    destruct Hik as [[-> ->] | [-> ->]]; simplify_map_eq; rewrite Hn;
      apply jsOr_zero, Hq. }
  split; [exact Hf|].
  intros d. rewrite (convertToPixels_size d o key Hk).
  rewrite Ho in Hf |- *. apply convertSize_null_entry.
  - destruct Hik as [[_ ->] | [_ ->]]; auto.
  - exact Hf.
Qed.

(** C10.  When [maxSize], [minSize] or [startSize] is given as an array
    whose width (first) or height (second) entry is the number 0, option
    parsing stores [null] for that entry, it is still [null] after the
    conversion to pixels, and what the rectangle model receives for it is
    an absent bound. *)
Theorem zero_size_entry_is_parsed_as_null
    (opts o : gmap string JsVal) (key : string) (l : list JsVal) :
  key ∈ sizeKeys ->
  parseOptions opts = Normal o ->
  getp opts key = JArr l ->
  (forall q, nth 0 l JUndefined = JNum q -> q == 0 ->
     field (getp o key) "width" = JNull
     /\ forall d, field (getp (convertToPixels d o) key) "width" = JNull
                  /\ toBound (field (getp (convertToPixels d o) key) "width") = None)
  /\ (forall q, nth 1 l JUndefined = JNum q -> q == 0 ->
     field (getp o key) "height" = JNull
     /\ forall d, field (getp (convertToPixels d o) key) "height" = JNull
                  /\ toBound (field (getp (convertToPixels d o) key) "height") = None).
Proof.
  intros Hk Hp Hv. split; intros q Hn Hq.
  - destruct (zero_entry_null opts o key l 0 "width" q Hk Hp Hv (or_introl (conj eq_refl eq_refl)) Hn Hq)
      as [H1 H2].
    split; [exact H1|]. intros d. rewrite (H2 d). split; reflexivity.
  - destruct (zero_entry_null opts o key l 1 "height" q Hk Hp Hv (or_intror (conj eq_refl eq_refl)) Hn Hq)
      as [H1 H2].
    split; [exact H1|]. intros d. rewrite (H2 d). split; reflexivity.
Qed.

(** C10's theorem at [{maxSize: [0, 50]}]: the width bound is [null]. *)
Lemma zero_size_entry_witness :
  "maxSize" ∈ sizeKeys
  /\ parseOptions zeroMaxWidthOptions = Normal (parsedOptions zeroMaxWidthOptions)
  /\ getp zeroMaxWidthOptions "maxSize" = JArr [JNum 0; JNum 50]
  /\ field (getp (parsedOptions zeroMaxWidthOptions) "maxSize") "width" = JNull
  /\ field (getp (parsedOptions zeroMaxWidthOptions) "maxSize") "height" = JNum 50.
Proof.
  assert (H1 : "maxSize" ∈ sizeKeys) by (unfold sizeKeys; apply list_elem_of_here).
  assert (H2 : parseOptions zeroMaxWidthOptions = Normal (parsedOptions zeroMaxWidthOptions))
    by (vm_compute; reflexivity).
  assert (H3 : getp zeroMaxWidthOptions "maxSize" = JArr [JNum 0; JNum 50])
    by (vm_compute; reflexivity).
  split; [exact H1|]. split; [exact H2|]. split; [exact H3|].
  destruct (zero_size_entry_is_parsed_as_null _ _ _ _ H1 H2 H3) as [Hw _].
  destruct (Hw 0 eq_refl (Qeq_refl 0)) as [Hn _].
  split; [exact Hn|]. vm_compute. reflexivity.
Defined.

(** ** C6: the 'ratio' projection *)

Lemma Math_round_near (y : Q) :
  inject_Z (Math_round y) <= y + (1 # 2) /\ y - (1 # 2) < inject_Z (Math_round y).
Proof.
  unfold Math_round.
  pose proof (Qfloor_le (y + (1 # 2))) as H1.
  pose proof (Qlt_floor (y + (1 # 2))) as H2.
  rewrite inject_Z_plus in H2. change (inject_Z 1) with 1 in H2.
  split; lra.
Qed.

Lemma exponentForm_true_iff (v : Q) :
  exponentForm v = true
  <-> (~ v == 0 /\ Qabs v < 1 # 1000000) \/ inject_Z (10 ^ 21) <= Qabs v.
Proof.
  unfold exponentForm.
  rewrite orb_true_iff, andb_true_iff, !negb_true_iff, Qle_bool_iff.
  rewrite <- !not_true_iff_false, Qeq_bool_iff, Qle_bool_iff.
  split; (intros [[H1 H2] | H]; [left; split; [exact H1|] | right; exact H]).
  - apply Qnot_le_lt. exact H2.
  - apply Qlt_not_le. exact H2.
Qed.

Lemma exponentForm_false_iff (v : Q) :
  exponentForm v = false
  <-> (v == 0 \/ 1 # 1000000 <= Qabs v) /\ Qabs v < inject_Z (10 ^ 21).
Proof.
  rewrite <- not_true_iff_false, exponentForm_true_iff.
  split.
  - intros H. split.
    + destruct (Qeq_dec v 0) as [E | E]; [left; exact E | right].
      destruct (Qlt_le_dec (Qabs v) (1 # 1000000)) as [L | L]; [|exact L].
      exfalso. apply H. left. split; assumption.
    + apply Qnot_le_lt. intros L. apply H. right. exact L.
  - intros [[E | L] U] [[N S] | B].
    + contradiction.
    + apply (Qlt_not_le _ _ U B).
    + apply (Qlt_not_le _ _ S L).
    + apply (Qlt_not_le _ _ U B).
Qed.

(** The string of an integer between 0 and 1000 is a plain decimal. *)
Lemma exponentForm_small_integer (n : Z) :
  (0 <= n <= 1000)%Z -> exponentForm (inject_Z n) = false.
Proof.
  intros [H0 H1]. apply exponentForm_false_iff.
  assert (Ha : Qabs (inject_Z n) == inject_Z n)
    by (apply Qabs_pos; change 0 with (inject_Z 0); rewrite <- Zle_Qle; exact H0).
  rewrite Ha. split.
  - destruct (Z.eq_dec n 0%Z) as [-> | Hn]; [left; reflexivity | right].
    apply Qle_trans with (inject_Z 1); [discriminate|].
    rewrite <- Zle_Qle. lia.
  - rewrite <- Zlt_Qlt. lia.
Qed.

(** Where [round(v, 3)] is a number, it is a multiple of 1/1000 within
    1/2000 of [v]. *)
Lemma round3_spec (v r : Q) :
  round v 3 = CropValue.Num r ->
  (exists n : Z, r == n # 1000) /\ Qabs (r - v) <= 1 # 2000.
Proof.
  unfold round. change (inject_Z (10 ^ Z.of_nat 3)) with 1000.
  destruct (exponentForm v); [discriminate|]. cbv zeta.
  destruct (exponentForm (inject_Z (Math_round (v * 1000)))); [discriminate|].
  intros H. injection H as <-.
  split.
  - exists (Math_round (v * 1000)). unfold Qdiv, Qeq. simpl. lia.
  - destruct (Math_round_near (v * 1000)) as [H1 H2].
    set (n := inject_Z (Math_round (v * 1000))) in *.
    apply Qabs_case; intros _.
    + assert (n / 1000 == n * (1 # 1000)) as -> by (field). lra.
    + assert (n / 1000 == n * (1 # 1000)) as -> by (field). lra.
Qed.

Lemma Math_round_nonneg x : 0 <= x -> (0 <= Math_round x)%Z.
Proof.
  intros H. unfold Math_round.
  change 0%Z with (Qfloor 0). apply Qfloor_resp_le. lra.
Qed.

(** [round(v, 3)] for [v] between 0 and 1: [NaN] when [v] is positive and
    below [10^-6], otherwise a number between 0 and 1. *)
Lemma round3_unit (v : Q) :
  0 <= v -> v <= 1 ->
  match round v 3 with
  | CropValue.NaN => 0 < v /\ v < 1 # 1000000
  | CropValue.Num r => (v == 0 \/ 1 # 1000000 <= v) /\ 0 <= r /\ r <= 1
  end.
Proof.
  intros H0 H1. unfold round. change (inject_Z (10 ^ Z.of_nat 3)) with 1000.
  assert (Ha : Qabs v == v) by (apply Qabs_pos; exact H0).
  assert (Hn : (0 <= Math_round (v * 1000))%Z) by (apply Math_round_nonneg; lra).
  assert (Hm : (Math_round (v * 1000) <= 1000)%Z).
  { unfold Math_round.
    apply (Qfloor_resp_le (v * 1000 + (1 # 2)) (1000 + (1 # 2))). lra. }
  destruct (exponentForm v) eqn:E.
  - apply exponentForm_true_iff in E. rewrite Ha in E.
    destruct E as [[N S] | B].
    + split; [|exact S]. apply Qle_lteq in H0. destruct H0 as [L | Z0]; [exact L|].
      exfalso. apply N. symmetry. exact Z0.
    + exfalso. apply (Qle_not_lt _ _ B). apply Qle_lt_trans with 1; [exact H1|reflexivity].
  - cbv zeta. rewrite (exponentForm_small_integer _ (conj Hn Hm)).
    apply exponentForm_false_iff in E. rewrite Ha in E. destruct E as [E _].
    split; [exact E|].
    set (n := Math_round (v * 1000)) in *.
    assert (Hq0 : 0 <= inject_Z n)
      by (change 0 with (inject_Z 0); rewrite <- Zle_Qle; exact Hn).
    assert (Hq1 : inject_Z n <= 1000)
      by (change 1000 with (inject_Z 1000); rewrite <- Zle_Qle; exact Hm).
    split.
    + apply Qle_shift_div_l; [reflexivity | rewrite Qmult_0_l; exact Hq0].
    + apply Qle_shift_div_r; [reflexivity | rewrite Qmult_1_l; exact Hq1].
Qed.

(** C6.  The code at a rectangle whose left edge is at 0.00001 in a target
    rendered 100x100.  The quotient [x1 / width] is [10^-7], whose string
    is "1e-7": [round] appends its exponent to that string and gets
    [NaN], so the [x] of [getValue('ratio')] is [NaN], not the quotient
    rounded to 3 decimal places (which would be 0); the other components
    are rounded.  [moveTo(0.00001, 0)] on [sampleCore] puts the instance
    in that state.  [round] fails in the same way on [-10^-7] and, through
    the string of the rounded integer, on [10^18]; [10^-6] itself, printed
    as "0.000001", is rounded to 0.  For the rectangle (10, 10, 60, 60)
    rendered 100x100 the value is
    [{x: 0.1, y: 0.1, width: 0.5, height: 0.5}]. *)
Theorem getValue_ratio_small_quotient_is_NaN (st : Core) :
  round ((1 # 100000) / elementWidth page100) 3 = CropValue.NaN
  /\ round (- (1 # 10000000)) 3 = CropValue.NaN
  /\ round (inject_Z (10 ^ 18)) 3 = CropValue.NaN
  /\ CropValue.numEq (round (1 # 1000000) 3) 0
  /\ (exists v,
        getValue (JStr "ratio") page100 (set_box (Box.new (1 # 100000) 10 60 60) st)
        = Some v
        /\ CropValue.x v = CropValue.NaN
        /\ CropValue.numEq (CropValue.y v) (1 # 10)
        /\ CropValue.numEq (CropValue.width v) (3 # 5)
        /\ CropValue.numEq (CropValue.height v) (1 # 2))
  /\ (exists v,
        getValue (JStr "ratio") page100 (snd (moveTo (Some (1 # 100000)) (Some 0)
                                                    page100 sampleCore))
        = Some v
        /\ CropValue.x v = CropValue.NaN)
  /\ (exists v,
        getValue (JStr "ratio") page100 (set_box (Box.new 10 10 60 60) st) = Some v
        /\ CropValue.eq v (CropValue.mk (1 # 10) (1 # 10) (1 # 2) (1 # 2))).
Proof.
  do 4 (split; [vm_compute; reflexivity|]). split; [|split].
  - eexists. split; [reflexivity|]. vm_compute. repeat split; reflexivity.
  - eexists. split; [reflexivity|]. vm_compute. reflexivity.
  - eexists. split; [reflexivity|]. vm_compute. repeat split; reflexivity.
Qed.

(** ** C7: the start of a resize *)

(** C7.  [onHandleMoveStart] for handle [h] stores as active handle the
    handle, the origin [[1 - h.position[0], 1 - h.position[1]]] and the
    absolute coordinates that [getAbsolutePoint] gives for this origin on
    the current rectangle; it leaves the rectangle alone and fires
    [onSelectStart], when configured, with the current value snapshot.
    Both resize starts are this function: the 'handlestart' event of a
    handle, and the pointer-down on the overlay, which runs it for the
    south-east handle on the fresh 1x1 rectangle (so the origin is [0, 0],
    at the pointer). *)
Theorem resize_start_captures_opposite_anchor (h : Handle) (d : Dom) (st : Core) :
  let st' := onHandleMoveStart h d st in
  let anchor := (1 - fst (position h), 1 - snd (position h)) in
  activeHandle st'
  = Some {| handle := h; originPoint := anchor;
            originX := fst (Box.getAbsolutePoint anchor (box st));
            originY := snd (Box.getAbsolutePoint anchor (box st)) |}
  /\ box st' = box st
  /\ (forall f, getp (options st) "onSelectStart" = JFun f ->
        effects st' = effects st ++ [Callback OnSelectStart f (getValue JNull d st)])
  /\ (getp (options st) "onSelectStart" = JNull -> effects st' = effects st)
  /\ step d st (HandleStart h) = st'
  /\ (forall x y,
        exists se,
          HANDLES !! SOUTHEAST_HANDLE_IDX = Some se
          /\ direction se = "se"
          /\ let fresh := Box.new (x - containerLeft d) (y - containerTop d)
                                  (x - containerLeft d + 1) (y - containerTop d + 1) in
             overlayMouseDown x y d st
             = onHandleMoveStart se d
                 (set_box fresh (set_tmpBox (box st) (set_overlayListening true st)))
             /\ (1 - fst (position se) == 0 /\ 1 - snd (position se) == 0)
             /\ fst (Box.getAbsolutePoint (1 - fst (position se), 1 - snd (position se)) fresh)
                == x - containerLeft d
             /\ snd (Box.getAbsolutePoint (1 - fst (position se), 1 - snd (position se)) fresh)
                == y - containerTop d).
Proof.
  cbv zeta. split; [|split; [|split; [|split; [|split]]]].
  - unfold onHandleMoveStart.
    destruct (Box.getAbsolutePoint _ (box st)) as [ox oy] eqn:E. cbn [fst snd].
    match goal with |- context [listener ?s (fire ?n d ?s)] =>
      destruct (listener_fire_frame n d s) as (_ & _ & Ha & _) end.
    rewrite Ha. reflexivity.
  - apply onHandleMoveStart_frame.
  - intros f Hf. rewrite onHandleMoveStart_effects. f_equal.
    destruct (onHandleMoveStart_frame h d st) as (Ho & Hb & _ & _).
    rewrite (notification_ext _ d st _ Ho Hb).
    apply notification_fun. exact Hf.
  - intros Hf. rewrite onHandleMoveStart_effects.
    destruct (onHandleMoveStart_frame h d st) as (Ho & Hb & _ & _).
    rewrite (notification_ext _ d st _ Ho Hb).
    rewrite notification_null; [apply app_nil_r | exact Hf].
  - reflexivity.
  - intros x y. eexists. split; [reflexivity|]. split; [reflexivity|].
    split; [reflexivity|]. cbn [position fst snd Box.getAbsolutePoint Box.x1 Box.x2 Box.y1 Box.y2].
    repeat split; ring.
Qed.

(** ** C8: which dimension the ratio step derives *)

Lemma resize_width w h o b : Box.width (Box.resize w h o b) == Qabs w.
Proof.
  unfold Box.resize, Box.width. destruct (Box.getAbsolutePoint o b) as [ax ay].
  cbn [Box.x1 Box.x2]. apply Qabs_wd. ring.
Qed.

Lemma resize_height w h o b : Box.height (Box.resize w h o b) == Qabs h.
Proof.
  unfold Box.resize, Box.height. destruct (Box.getAbsolutePoint o b) as [ax ay].
  cbn [Box.y1 Box.y2]. apply Qabs_wd. ring.
Qed.

Lemma constrainToRatio_width_mode r o b :
  0 < r ->
  Box.width (Box.constrainToRatio (Some r) o (Some Box.ModeWidth) b) == Box.height b / r
  /\ Box.height (Box.constrainToRatio (Some r) o (Some Box.ModeWidth) b) == Box.height b.
Proof.
  intros Hr. cbn [Box.constrainToRatio]. rewrite resize_width, resize_height.
  pose proof (height_nonneg b) as Hh.
  split; apply Qabs_pos; [|exact Hh].
  apply Qle_shift_div_l; [exact Hr|]. lra.
Qed.

Lemma constrainToRatio_height_mode r o b :
  0 < r ->
  Box.height (Box.constrainToRatio (Some r) o (Some Box.ModeHeight) b) == Box.width b * r
  /\ Box.width (Box.constrainToRatio (Some r) o (Some Box.ModeHeight) b) == Box.width b.
Proof.
  intros Hr. cbn [Box.constrainToRatio]. rewrite resize_width, resize_height.
  pose proof (width_nonneg b) as Hw.
  split; apply Qabs_pos; [|exact Hw].
  apply Qmult_le_0_compat; lra.
Qed.

Lemma corner_handles h :
  h ∈ HANDLES -> MULTI_AXIS h = true ->
  (LEFT_MOVABLE h = true /\ RIGHT_MOVABLE h = false
   \/ LEFT_MOVABLE h = false /\ RIGHT_MOVABLE h = true)
  /\ (TOP_MOVABLE h = true /\ BOTTOM_MOVABLE h = false
      \/ TOP_MOVABLE h = false /\ BOTTOM_MOVABLE h = true).
Proof.
  unfold HANDLES. rewrite !elem_of_cons, elem_of_nil.
  intros H; decompose [or] H; subst; cbn; intros; try discriminate; auto.
  contradiction.
Qed.

Lemma edge_handles h :
  h ∈ HANDLES -> MULTI_AXIS h = false ->
  (LEFT_MOVABLE h || RIGHT_MOVABLE h = false /\ TOP_MOVABLE h || BOTTOM_MOVABLE h = true)
  \/ (LEFT_MOVABLE h || RIGHT_MOVABLE h = true /\ TOP_MOVABLE h || BOTTOM_MOVABLE h = false).
Proof.
  unfold HANDLES. rewrite !elem_of_cons, elem_of_nil.
  intros H; decompose [or] H; subst; cbn; intros; try discriminate; auto.
  contradiction.
Qed.

Ltac case_Qabs :=
  repeat match goal with
  | |- context [Qabs ?t] =>
      first [ rewrite (Qabs_pos t) by lra
            | rewrite (Qabs_neg t) by lra ]
  end.

(** For a corner handle, the pointer is farther from the anchor
    vertically than the ratio allows for its horizontal distance exactly
    when [isVerticalMovement] holds. *)
Lemma corner_isVerticalMovement a b d mouseX mouseY ratio :
  handle a ∈ HANDLES -> MULTI_AXIS (handle a) = true -> 0 < ratio ->
  let mx := fst (localMouse d mouseX mouseY) in
  let my := snd (localMouse d mouseX mouseY) in
  let fresh := fst (handleMoveNewBox a b d mouseX mouseY) in
  isVerticalMovement (handle a) ratio my fresh = true
  <-> ratio * Qabs (mx - originX a) < Qabs (my - originY a).
Proof.
  intros Hin Hm Hr. cbv zeta.
  destruct (corner_handles _ Hin Hm) as [HX HY].
  unfold handleMoveNewBox, isVerticalMovement. rewrite Hm.
  destruct (localMouse d mouseX mouseY) as [mx my]. cbn [fst snd].
  unfold isFlipped, handleEdges, applyFlip, boxOfEdges.
  destruct (originPoint a) as [ox oy].
  rewrite orb_true_iff, !jsLt_true.
  destruct HX as [[-> ->] | [-> ->]], HY as [[-> ->] | [-> ->]]; cbn [orb fst snd].
  all: case_jsLt; unfold Box.width; cbn [fst snd Box.x1 Box.x2 Box.y1 Box.y2].
  all: case_Qabs.
  all: split; [intros [H|H]; nra | intros H; first [left; nra | right; nra]].
Qed.

Lemma vertical_only_mode h ratio my b :
  h ∈ HANDLES -> LEFT_MOVABLE h || RIGHT_MOVABLE h = false ->
  ratioMode h ratio my b = Box.ModeWidth.
Proof.
  unfold HANDLES. rewrite !elem_of_cons, elem_of_nil.
  intros H; decompose [or] H; subst; cbn; intros; try discriminate; auto.
  contradiction.
Qed.

Lemma horizontal_only_mode h ratio my b :
  TOP_MOVABLE h || BOTTOM_MOVABLE h = false ->
  ratioMode h ratio my b = Box.ModeHeight.
Proof.
  intros H. unfold ratioMode, isVerticalMovement, MULTI_AXIS. rewrite H.
  rewrite andb_false_r. reflexivity.
Qed.

(** C8.  With an aspect ratio [ratio > 0] configured, a handle-drag step
    calls [constrainToRatio] first, with the mirrored origin and a mode
    chosen as follows.  For a corner handle the mode is 'width' exactly
    when the pointer's vertical distance from the anchor exceeds [ratio]
    times its horizontal distance (the pointer is beyond the line of slope
    [ratio] through the anchor), and 'height' otherwise.  For a handle
    that moves only vertically (n, s) the mode is always 'width', for one
    that moves only horizontally (e, w) always 'height'.  Mode 'width'
    derives the width from the height ([height / ratio], height kept);
    mode 'height' derives the height from the width ([width * ratio],
    width kept). *)
Theorem ratio_mode_follows_dragged_axis
    (opts : gmap string JsVal) (a : ActiveHandle) (b : Box.Box) (d : Dom)
    (mouseX mouseY ratio : Q) :
  handle a ∈ HANDLES ->
  0 < ratio ->
  getp opts "aspectRatio" = JNum ratio ->
  let h := handle a in
  let mx := fst (localMouse d mouseX mouseY) in
  let my := snd (localMouse d mouseX mouseY) in
  let fresh := fst (handleMoveNewBox a b d mouseX mouseY) in
  let origin := snd (handleMoveNewBox a b d mouseX mouseY) in
  let mode := ratioMode h ratio my fresh in
  let constrained := Box.constrainToRatio (Some ratio) origin (Some mode) fresh in
  head (callsOf (handleMoveProg opts d h origin my) fresh)
    = Some (CallConstrainToRatio (Some ratio) origin (Some mode))
  /\ (MULTI_AXIS h = true ->
        (mode = Box.ModeWidth
           <-> ratio * Qabs (mx - originX a) < Qabs (my - originY a))
        /\ (mode = Box.ModeHeight
           <-> Qabs (my - originY a) <= ratio * Qabs (mx - originX a)))
  /\ (LEFT_MOVABLE h || RIGHT_MOVABLE h = false -> mode = Box.ModeWidth)
  /\ (TOP_MOVABLE h || BOTTOM_MOVABLE h = false -> mode = Box.ModeHeight)
  /\ (mode = Box.ModeWidth ->
        Box.width constrained == Box.height fresh / ratio
        /\ Box.height constrained == Box.height fresh)
  /\ (mode = Box.ModeHeight ->
        Box.height constrained == Box.width fresh * ratio
        /\ Box.width constrained == Box.width fresh).
Proof.
  intros Hin Hr Ha h mx my fresh origin mode constrained.
  split.
  { unfold handleMoveProg, callsOf, mbind, BoxProg_bind, this_box.
    rewrite Ha. cbn [truthy toBound toNumber].
    assert (Hz : Qeq_bool ratio 0 = false).
    { destruct (Qeq_bool ratio 0) eqn:E; [|reflexivity].
      apply Qeq_bool_iff in E. lra. }
    rewrite Hz. reflexivity. }
  split.
  { intros Hm.
    pose proof (corner_isVerticalMovement a b d mouseX mouseY ratio Hin Hm Hr) as Hv.
    cbv zeta in Hv. fold mx my fresh in Hv.
    subst mode. unfold ratioMode. fold h in Hv.
    destruct (isVerticalMovement h ratio my fresh) eqn:E.
    - pose proof (proj1 Hv eq_refl) as Hlt.
      split; split; intros H; try reflexivity; try discriminate; lra.
    - assert (Hnl : ~ ratio * Qabs (mx - originX a) < Qabs (my - originY a))
        by (intros Hlt; apply Hv in Hlt; discriminate).
      split; split; intros H; try reflexivity; try discriminate.
      + contradiction.
      + apply Qnot_lt_le, Hnl. }
  split; [intros H; apply vertical_only_mode; assumption|].
  split; [intros H; apply horizontal_only_mode; assumption|].
  split; intros Hmode; subst constrained; rewrite Hmode.
  - apply constrainToRatio_width_mode, Hr.
  - apply constrainToRatio_height_mode, Hr.
Qed.

(** C8's theorem at a drag of the south handle to (50, 80) with ratio 2:
    the mode is 'width'. *)
Lemma ratio_mode_witness :
  handle southDrag ∈ HANDLES
  /\ 0 < 2
  /\ getp ({[ "aspectRatio" := JNum 2 ]} : gmap string JsVal) "aspectRatio" = JNum 2
  /\ ratioMode southHandle 2 (snd (localMouse page100 50 80))
               (fst (handleMoveNewBox southDrag (box sampleCore) page100 50 80))
     = Box.ModeWidth.
Proof.
  assert (H1 : handle southDrag ∈ HANDLES).
  { unfold HANDLES. do 5 apply list_elem_of_further. apply list_elem_of_here. }
  assert (H2 : 0 < 2) by reflexivity.
  assert (H3 : getp ({[ "aspectRatio" := JNum 2 ]} : gmap string JsVal) "aspectRatio" = JNum 2)
    by (vm_compute; reflexivity).
  split; [exact H1|]. split; [exact H2|]. split; [exact H3|].
  destruct (ratio_mode_follows_dragged_axis _ southDrag (box sampleCore) page100 50 80 2
              H1 H2 H3) as (_ & _ & Hv & _).
  apply Hv. reflexivity.
Defined.

(** ** C9: the programmatic operations *)





(** C5's theorem on [sampleCore] grabbed at (30, 30), offset (5, 5), and
    dragged to (200, 40): the right edge is put on the container's right
    edge and the size is kept. *)
Lemma region_move_witness :
  let st := set_currentMove (5, 5) sampleCore in
  currentMove st = Some (5, 5)
  /\ Box.x2 (box (onRegionMoveMoving 200 40 page100 st)) == 100
  /\ Box.width (box (onRegionMoveMoving 200 40 page100 st)) == Box.width (box sampleCore).
Proof.
  cbv zeta.
  assert (H : currentMove (set_currentMove (5, 5) sampleCore) = Some (5, 5)) by reflexivity.
  split; [exact H|].
  destruct (region_move_translates_then_clamps_position page100 _ 200 40 (5, 5) H)
    as (Hb & _ & _ & Hw & _ & _ & _ & Hcw & _).
  rewrite Hb. split.
  - vm_compute. reflexivity.
  - rewrite Hcw. exact Hw.
Defined.

(** ** Concrete runs *)

(** The sample instance starts with a 50x50 rectangle in the middle of the
    100x100 container and one render request. *)
Example sampleCore_initial :
  Box.eq (box sampleCore) (Box.new 25 25 75 75)
  /\ effects sampleCore = [Redraw 25 25 50 50].
Proof. vm_compute. repeat split; reflexivity. Qed.

(** Drawing a new region from (40, 40) to (70, 60) on the overlay: start,
    move and end are notified, in raw coordinates. *)
Example overlay_drag_creates_region :
  let final := run page100 sampleCore
                   [OverlayMouseDown 40 40; OverlayMouseMove 70 60; OverlayMouseUp] in
  Box.eq (box final) (Box.new 40 40 70 60)
  /\ effects final
     = [Redraw 25 25 50 50;
        Callback OnSelectStart 1 (Some (CropValue.mk 40 40 1 1));
        Redraw 40 40 30 20;
        Callback OnSelectMove 2 (Some (CropValue.mk 40 40 30 20));
        Callback OnSelectEnd 3 (Some (CropValue.mk 40 40 30 20))].
Proof. vm_compute. repeat split; reflexivity. Qed.

(** Dragging the north-west handle past the south-east corner flips both
    axes. *)
Example nw_drag_past_anchor_flips :
  let final := run page100 sampleCore
                   (match HANDLES !! 0%nat with
                    | Some nw => [HandleStart nw; HandleMove 90 95]
                    | None => []
                    end) in
  Box.eq (box final) (Box.new 75 75 90 95).
Proof. vm_compute. repeat split; reflexivity. Qed.

(** The ratio step of a south-handle drag with the aspect ratio 1: the
    rectangle pulled up to 100x40 gets the width 40, derived from its
    height, around the middle of its top edge. *)
Example south_drag_ratio_step :
  ratioMode southHandle 1 40 (Box.new 0 0 100 40) = Box.ModeWidth
  /\ Box.eq (applyCall (CallConstrainToRatio (Some 1) (1 # 2, 0) (Some Box.ModeWidth))
                       (Box.new 0 0 100 40))
            (Box.new 30 0 70 40).
Proof. vm_compute. repeat split; reflexivity. Qed.

(** Dragging the region beyond the right and bottom edges: the rectangle
    is stopped at the edges and keeps its size. *)
Example region_drag_stops_at_edges :
  let final := run page100 sampleCore [RegionStart 30 30; RegionMove 200 300; RegionEnd] in
  Box.eq (box final) (Box.new 50 50 100 100).
Proof. vm_compute. repeat split; reflexivity. Qed.

(** A valid [setOptions] call re-initialises the rectangle, renders, and
    returns nothing. *)
Example setOptions_valid :
  let r := setOptions {[ "returnMode" := JStr "RATIO" ]} page100 sampleCore in
  fst r = Normal ReturnsUndefined
  /\ getp (options (snd r)) "returnMode" = JStr "ratio".
Proof. vm_compute. repeat split; reflexivity. Qed.

(** * Further properties of the code *)

(** ** Option parsing: errors and the shape of its result *)

Lemma notIn_false_cases s :
  notIn s ["real"; "ratio"; "raw"] = false -> s = "real" \/ s = "ratio" \/ s = "raw".
Proof.
  unfold notIn. cbn [existsb]. rewrite negb_false_iff, !orb_true_iff.
  intros [H | [H | [H | H]]]; try discriminate;
    apply String.eqb_eq in H; auto.
Qed.

Lemma parseReturnMode_normal v m :
  parseReturnMode v = Normal m ->
  (v = JUndefined /\ m = JNull)
  \/ exists s, v = JStr s /\ m = JStr (toLowerCase s)
               /\ notIn (toLowerCase s) ["real"; "ratio"; "raw"] = false.
Proof.
  destruct v; cbn; intros H; try discriminate.
  - injection H as <-. auto.
  - destruct (notIn (toLowerCase s) ["real"; "ratio"; "raw"]) eqn:E; [discriminate|].
    injection H as <-. right. eauto.
Qed.

Lemma parseOptions_inv opts o :
  parseOptions opts = Normal o ->
  exists rm,
    parseReturnMode (getp opts "returnMode") = Normal rm
    /\ getp o "aspectRatio" = defaultValue (parseAspectRatio (getp opts "aspectRatio")) JNull
    /\ getp o "returnMode" = defaultValue rm (JStr "real")
    /\ forall name, getp o (callbackKey name)
                    = parseCallback (getp opts (callbackKey name)).
Proof.
  unfold parseOptions. intros H.
  destruct (parseReturnMode (getp opts "returnMode")) as [rm|e]; [|discriminate].
  injection H as <-. exists rm. split; [reflexivity|].
  split; [unfold getp at 1; simplify_map_eq; reflexivity|].
  split; [unfold getp at 1; simplify_map_eq; reflexivity|].
  intros name.
  assert (Hd : forall v, defaultValue (parseCallback v) JNull = parseCallback v)
    by (intros v; destruct v; reflexivity).
  destruct name; cbn [callbackKey]; unfold getp at 1; simplify_map_eq; apply Hd.
Qed.

(** X1.  [parseOptions] fails only on the return mode: it returns an
    options object exactly when [returnMode] is not given or is a string
    that is, in lower case, 'real', 'ratio' or 'raw'; a string of another
    content throws "Invalid return mode.", any other value (null, a
    number, ...) throws a TypeError.  Whatever the other options hold,
    they raise nothing. *)
Theorem parseOptions_fails_only_on_returnMode (opts : gmap string JsVal) :
  match getp opts "returnMode" with
  | JUndefined => exists o, parseOptions opts = Normal o /\ getp o "returnMode" = JStr "real"
  | JStr s =>
      if notIn (toLowerCase s) ["real"; "ratio"; "raw"]
      then parseOptions opts = Throw (ExnString "Invalid return mode.")
      else exists o, parseOptions opts = Normal o
                     /\ getp o "returnMode" = JStr (toLowerCase s)
  | _ => parseOptions opts = Throw TypeError
  end.
Proof.
  destruct (getp opts "returnMode") eqn:E.
  all: try (unfold parseOptions; rewrite E; reflexivity).
  - destruct (parseOptions opts) as [o|e] eqn:P.
    + exists o. split; [reflexivity|].
      destruct (parseOptions_inv _ _ P) as (rm & Hr & _ & Hm & _).
      rewrite E in Hr. injection Hr as <-. exact Hm.
    + unfold parseOptions in P. rewrite E in P. discriminate.
  - destruct (notIn (toLowerCase s) ["real"; "ratio"; "raw"]) eqn:N.
    + unfold parseOptions. rewrite E. cbn [parseReturnMode]. rewrite N. reflexivity.
    + destruct (parseOptions opts) as [o|e] eqn:P.
      * exists o. split; [reflexivity|].
        destruct (parseOptions_inv _ _ P) as (rm & Hr & _ & Hm & _).
        rewrite E in Hr. cbn [parseReturnMode] in Hr. rewrite N in Hr.
        injection Hr as <-. exact Hm.
      * unfold parseOptions in P. rewrite E in P. cbn [parseReturnMode] in P.
        rewrite N in P. discriminate.
Qed.

Lemma parseOptions_size_obj (opts o : gmap string JsVal) key :
  key ∈ sizeKeys -> parseOptions opts = Normal o -> exists m, getp o key = JObj m.
Proof.
  intros Hk P. unfold parseOptions in P.
  destruct (parseReturnMode (getp opts "returnMode")) as [rm|e]; [|discriminate].
  injection P as <-.
  unfold sizeKeys in Hk. rewrite !elem_of_cons, elem_of_nil in Hk.
  destruct Hk as [-> | [-> | [-> | []]]]; unfold getp at 1; simplify_map_eq.
  - destruct (getp opts "maxSize"); cbn; eauto.
  - destruct (getp opts "minSize"); cbn; eauto.
  - destruct (getp opts "startSize"); cbn; eauto.
Qed.

Lemma convertToPixels_other d (o : gmap string JsVal) k :
  k ∉ sizeKeys -> getp (convertToPixels d o) k = getp o k.
Proof.
  unfold sizeKeys. rewrite !not_elem_of_cons. intros (H1 & H2 & H3 & _).
  unfold convertToPixels, sizeKeys. cbn [foldl]. unfold getp at 1.
  rewrite !lookup_insert_ne by congruence. reflexivity.
Qed.

Lemma callbackKey_not_size name : callbackKey name ∉ sizeKeys.
Proof.
  unfold sizeKeys. rewrite !not_elem_of_cons.
  destruct name; cbn; repeat split; try discriminate; apply not_elem_of_nil.
Qed.

Lemma wellFormed_convertToPixels d o :
  wellFormedOptions o -> wellFormedOptions (convertToPixels d o).
Proof.
  intros (Hm & Hc & Hs). split; [|split].
  - rewrite convertToPixels_other; [exact Hm|].
    unfold sizeKeys. rewrite !not_elem_of_cons.
    repeat split; try discriminate; apply not_elem_of_nil.
  - intros name. rewrite convertToPixels_other by apply callbackKey_not_size. apply Hc.
  - intros key Hk. rewrite convertToPixels_size by exact Hk.
    destruct (Hs key Hk) as [m ->]. cbn [convertSize]. eauto.
Qed.

Lemma parseOptions_wellFormed opts o :
  parseOptions opts = Normal o -> wellFormedOptions o.
Proof.
  intros P.
  destruct (parseOptions_inv _ _ P) as (rm & Hr & _ & Hm & Hc).
  split; [|split].
  - rewrite Hm. destruct (parseReturnMode_normal _ _ Hr) as [[_ ->] | (s & _ & -> & N)].
    + auto.
    + cbn [defaultValue]. destruct (notIn_false_cases _ N) as [-> | [-> | ->]]; auto.
  - intros name. rewrite Hc. destruct (getp opts (callbackKey name)); cbn; eauto.
  - intros key Hk. exact (parseOptions_size_obj opts o key Hk P).
Qed.

(** X2.  The object that [parseOptions] returns is well formed, and it
    still is after the conversion to pixels; its callbacks are the
    functions given, and anything given as a callback that is not a
    function is dropped ([null]). *)
Theorem parsed_options_are_well_formed (opts o : gmap string JsVal) (d : Dom) :
  parseOptions opts = Normal o ->
  wellFormedOptions o
  /\ wellFormedOptions (convertToPixels d o)
  /\ (forall name f, getp opts (callbackKey name) = JFun f <->
                     getp o (callbackKey name) = JFun f)
  /\ (forall name, (forall f, getp opts (callbackKey name) <> JFun f) ->
                   getp o (callbackKey name) = JNull).
Proof.
  intros P.
  destruct (parseOptions_inv _ _ P) as (rm & Hr & _ & Hm & Hc).
  pose proof (parseOptions_wellFormed _ _ P) as W.
  split; [exact W|]. split; [apply wellFormed_convertToPixels, W|]. split.
  - intros name f. rewrite Hc.
    destruct (getp opts (callbackKey name)); cbn; split; intros H;
      try discriminate; exact H.
  - intros name Hn. rewrite Hc.
    destruct (getp opts (callbackKey name)) eqn:E; cbn; try reflexivity.
    exfalso. apply (Hn f). reflexivity.
Qed.

(** X2's theorem at [sampleOptions]. *)
Lemma parsed_options_witness :
  parseOptions sampleOptions = Normal (parsedOptions sampleOptions)
  /\ wellFormedOptions (parsedOptions sampleOptions)
  /\ getp (parsedOptions sampleOptions) "onInitialize" = JNull.
Proof.
  assert (H : parseOptions sampleOptions = Normal (parsedOptions sampleOptions))
    by (vm_compute; reflexivity).
  split; [exact H|].
  destruct (parsed_options_are_well_formed _ _ page100 H) as (W & _ & _ & Hn).
  split; [exact W|].
  apply (Hn OnInitialize). intros f. vm_compute. discriminate.
Defined.

(** ** What events leave alone *)

Lemma onRegionMoveStart_frame x y d st :
  let st' := onRegionMoveStart x y d st in
  options st' = options st /\ box st' = box st.
Proof.
  unfold onRegionMoveStart. cbv zeta.
  match goal with |- context [listener ?s (fire ?n d ?s)] =>
    destruct (listener_fire_frame n d s) as (Ho & Hb & _) end.
  rewrite Ho, Hb. cbn. auto.
Qed.

Lemma onRegionMoveMoving_options x y d st :
  options (onRegionMoveMoving x y d st) = options st.
Proof.
  unfold onRegionMoveMoving. destruct (currentMove st) as [off|]; [|reflexivity].
  cbv zeta. rewrite listener_fire_options. reflexivity.
Qed.

Lemma overlayMouseUp_options d st : options (overlayMouseUp d st) = options st.
Proof.
  unfold overlayMouseUp. destruct (overlayListening st); [|reflexivity].
  cbn [box set_overlayListening tmpBox].
  destruct (Qeq_bool (Box.width (box st)) 1 && Qeq_bool (Box.height (box st)) 1).
  - destruct (tmpBox st); reflexivity.
  - unfold onHandleMoveEnd. rewrite listener_fire_options. reflexivity.
Qed.

Lemma step_options d st e : options (step d st e) = options st.
Proof.
  destruct e; cbn [step].
  - apply onHandleMoveStart_frame.
  - apply onHandleMoveMoving_frame.
  - unfold onHandleMoveEnd. apply listener_fire_options.
  - apply onRegionMoveStart_frame.
  - apply onRegionMoveMoving_options.
  - unfold onRegionMoveEnd. apply listener_fire_options.
  - apply overlayMouseDown_frame.
  - unfold overlayMouseMove. destruct (overlayListening st); [|reflexivity].
    apply onHandleMoveMoving_frame.
  - apply overlayMouseUp_options.
Qed.

Lemma run_options d es st : options (run d st es) = options st.
Proof.
  revert st. induction es as [|e es IH]; intros st; [reflexivity|].
  rewrite run_cons, IH. apply step_options.
Qed.

(** X3.  No pointer event changes the options, however many events are
    handled; and the events that start or end a handle drag or a region
    drag leave the rectangle as it is. *)
Theorem events_keep_options_and_start_end_keep_rectangle
    (d : Dom) (st : Core) (es : list Event) :
  options (run d st es) = options st
  /\ (forall h, box (step d st (HandleStart h)) = box st)
  /\ box (step d st HandleEnd) = box st
  /\ (forall x y, box (step d st (RegionStart x y)) = box st)
  /\ box (step d st RegionEnd) = box st.
Proof.
  split; [apply run_options|]. cbn [step].
  split; [intros h; apply onHandleMoveStart_frame|].
  split; [unfold onHandleMoveEnd; apply listener_fire_box|].
  split; [intros x y; apply onRegionMoveStart_frame|].
  unfold onRegionMoveEnd. apply listener_fire_box.
Qed.

(** ** An instance built by the constructor *)

Lemma construct_options opts d st :
  construct opts d = Normal st ->
  exists o, parseOptions opts = Normal o /\ options st = convertToPixels d o.
Proof.
  unfold construct. destruct (parseOptions opts) as [o|e]; [|discriminate].
  intros H. exists o. split; [reflexivity|].
  destruct (getp (convertToPixels d o) "onInitialize"); try discriminate;
    injection H as <-; reflexivity.
Qed.




Lemma sampleCore_constructed : construct sampleOptions page100 = Normal sampleCore.
Proof. vm_compute. reflexivity. Qed.


(** ** [setOptions] on a constructed instance *)

Lemma parseSize_sizeObject v u : parseSize v u = JNull \/ sizeObject (parseSize v u).
Proof.
  assert (H : forall a b c : JsVal,
             sizeObject (JObj {[ "width" := a; "height" := b; "unit" := c ]})).
  { intros a b c. eexists. split; [reflexivity|]. intros k H1 H2 H3.
    rewrite !lookup_insert_ne by congruence. apply lookup_singleton_ne. congruence. }
  destruct v; cbn; auto.
Qed.

Lemma parseOptions_sizeObject (opts o : gmap string JsVal) key :
  key ∈ sizeKeys -> parseOptions opts = Normal o -> sizeObject (getp o key).
Proof.
  intros Hk P. unfold parseOptions in P.
  destruct (parseReturnMode (getp opts "returnMode")) as [rm|e]; [|discriminate].
  injection P as <-.
  assert (D1 : sizeObject (JObj {[ "width" := JNull; "height" := JNull ]})).
  { eexists. split; [reflexivity|]. intros k H1 H2 H3.
    rewrite !lookup_insert_ne by congruence. apply lookup_singleton_ne. congruence. }
  assert (D2 : sizeObject (JObj {[ "width" := JNum 100; "height" := JNum 100;
                                   "unit" := JStr "%" ]})).
  { eexists. split; [reflexivity|]. intros k H1 H2 H3.
    rewrite !lookup_insert_ne by congruence. apply lookup_singleton_ne. congruence. }
  unfold sizeKeys in Hk. rewrite !elem_of_cons, elem_of_nil in Hk.
  destruct Hk as [-> | [-> | [-> | []]]]; unfold getp at 1; simplify_map_eq.
  - destruct (parseSize_sizeObject (getp opts "maxSize") "px") as [-> | H]; [exact D1|].
    destruct H as (m & E & Hm). rewrite E. cbn. eexists; eauto.
  - destruct (parseSize_sizeObject (getp opts "minSize") "px") as [-> | H]; [exact D1|].
    destruct H as (m & E & Hm). rewrite E. cbn. eexists; eauto.
  - destruct (parseSize_sizeObject (getp opts "startSize") "%") as [-> | H]; [exact D2|].
    destruct H as (m & E & Hm). rewrite E. cbn. eexists; eauto.
Qed.

Lemma convertSize_sizeObject w h v : sizeObject v -> sizeObject (convertSize w h v).
Proof.
  intros (m & -> & Hm). cbn [convertSize]. eexists. split; [reflexivity|].
  intros k H1 H2 H3.
  destruct (looseEqStr (getp m "unit") "%").
  - rewrite lookup_delete_ne by congruence.
    rewrite !lookup_insert_ne by congruence. auto.
  - rewrite lookup_delete_ne by congruence. auto.
Qed.

Lemma parseSize_of_sizeObject v u :
  sizeObject v ->
  parseSize v u = JObj {[ "width" := JNull; "height" := JNull; "unit" := JStr u ]}.
Proof.
  intros (m & -> & Hm). cbn [parseSize index]. unfold getp.
  rewrite !Hm by (vm_compute; discriminate). reflexivity.
Qed.

Lemma constructed_sizeObject opts d0 st0 d es key :
  construct opts d0 = Normal st0 -> key ∈ sizeKeys ->
  sizeObject (getp (options (run d st0 es)) key).
Proof.
  intros C Hk. destruct (construct_options _ _ _ C) as (o & P & Ho).
  rewrite run_options, Ho, convertToPixels_size by exact Hk.
  apply convertSize_sizeObject, (parseOptions_sizeObject opts o key Hk P).
Qed.

Lemma parseOptions_size_value (opts o : gmap string JsVal) key :
  key ∈ sizeKeys -> parseOptions opts = Normal o ->
  forall v, parseSize (getp opts key) (defaultUnit key) = JObj v -> getp o key = JObj v.
Proof.
  intros Hk P v Hv. unfold parseOptions in P.
  destruct (parseReturnMode (getp opts "returnMode")) as [rm|e]; [|discriminate].
  injection P as <-.
  unfold sizeKeys in Hk. rewrite !elem_of_cons, elem_of_nil in Hk.
  destruct Hk as [-> | [-> | [-> | []]]].
  - change (defaultUnit "maxSize") with "px" in Hv.
    unfold getp at 1; simplify_map_eq; rewrite Hv; reflexivity.
  - change (defaultUnit "minSize") with "px" in Hv.
    unfold getp at 1; simplify_map_eq; rewrite Hv; reflexivity.
  - change (defaultUnit "startSize") with "%" in Hv.
    unfold getp at 1; simplify_map_eq; rewrite Hv; reflexivity.
Qed.

Lemma getp_assign_target (target source : gmap string JsVal) k :
  source !! k = None -> getp (assign target source) k = getp target k.
Proof.
  intros H. unfold getp, assign. rewrite lookup_union_r by exact H. reflexivity.
Qed.

Lemma setOptions_normal opts d st r :
  fst (setOptions opts d st) = Normal r ->
  exists o, parseOptions (assign (options st) opts) = Normal o
            /\ setOptions opts d st
               = (Normal ReturnsUndefined,
                  redraw (set_box (initializeBox o d)
                            (set_options o (set_options (assign (options st) opts) st)))).
Proof.
  unfold setOptions. cbn [options set_options].
  destruct (parseOptions (assign (options st) opts)) as [o|e]; [|discriminate].
  intros _. exists o. split; reflexivity.
Qed.

(** X5.  [setOptions] on an instance built by the constructor: when it
    does not throw, it returns nothing (not the instance), installs the
    freshly initialised rectangle, requests one render and calls no
    callback.  It parses the stored options again, and a stored size is an
    object, not an array: so each of [maxSize], [minSize] and [startSize]
    that the call does not pass anew is forgotten (width and height [null],
    the default unit), and a forgotten start size makes the rectangle start
    from 0x0. *)
Theorem setOptions_forgets_sizes_not_passed
    (opts0 opts : gmap string JsVal) (d0 d : Dom) (st0 : Core) (es : list Event)
    (r : Returned) :
  construct opts0 d0 = Normal st0 ->
  let st := run d st0 es in
  let st' := snd (setOptions opts d st) in
  fst (setOptions opts d st) = Normal r ->
  r = ReturnsUndefined
  /\ parseOptions (assign (options st) opts) = Normal (options st')
  /\ box st' = initializeBox (options st') d
  /\ effects st' = effects st ++ [redrawOf (box st')]
  /\ (forall key, key ∈ sizeKeys -> opts !! key = None ->
        getp (options st') key
        = JObj {[ "width" := JNull; "height" := JNull;
                  "unit" := JStr (defaultUnit key) ]})
  /\ (opts !! "startSize" = None -> initialBox (options st') = Box.new 0 0 0 0).
Proof.
  intros C st st' Hr.
  destruct (setOptions_normal _ _ _ _ Hr) as (o & P & E).
  subst st'. rewrite E in Hr |- *. cbn [fst snd] in *.
  injection Hr as <-.
  split; [reflexivity|]. split; [exact P|]. split; [reflexivity|].
  split; [reflexivity|].
  assert (Hkey : forall key, key ∈ sizeKeys -> opts !! key = None ->
            getp o key = JObj {[ "width" := JNull; "height" := JNull;
                                 "unit" := JStr (defaultUnit key) ]}).
  { intros key Hk Hn.
    apply (parseOptions_size_value _ _ key Hk P).
    rewrite getp_assign_target by exact Hn.
    apply parseSize_of_sizeObject.
    exact (constructed_sizeObject opts0 d0 st0 d es key C Hk). }
  split; [exact Hkey|].
  intros Hn. unfold initialBox.
  cbn [options redraw perform set_box set_options].
  rewrite (Hkey "startSize");
    [reflexivity | unfold sizeKeys; do 2 apply list_elem_of_further; apply list_elem_of_here
     | exact Hn].
Qed.

Lemma jsOr_nonzero q dflt : ~ q == 0 -> jsOr (JNum q) dflt = JNum q.
Proof.
  intros H. unfold jsOr, truthy.
  destruct (Qeq_bool q 0) eqn:E; [|reflexivity].
  apply Qeq_bool_iff in E. contradiction.
Qed.

Lemma parseSize_percent_array w h u :
  ~ w == 0 -> ~ h == 0 ->
  parseSize (JArr [JNum w; JNum h; JStr "%"]) u
  = JObj {[ "width" := JNum w; "height" := JNum h; "unit" := JStr "%" ]}.
Proof.
  intros Hw Hh. cbn [parseSize index nth].
  rewrite (jsOr_nonzero w), (jsOr_nonzero h) by assumption. reflexivity.
Qed.

(** X6.  Only the constructor converts percentages.  A start size passed
    to [setOptions] as [[w, h, '%']] (both non-zero) is stored with its
    unit and its numbers are then used as they are: the rectangle starts
    from [w] x [h].  The constructor, given the same option, stores
    [w/100] of the container's width and [h/100] of its height, without
    a unit. *)
Theorem setOptions_does_not_convert_percent
    (opts0 opts : gmap string JsVal) (d0 d : Dom) (st0 : Core) (es : list Event)
    (r : Returned) (w h : Q) :
  construct opts0 d0 = Normal st0 ->
  let st := run d st0 es in
  let st' := snd (setOptions opts d st) in
  fst (setOptions opts d st) = Normal r ->
  opts !! "startSize" = Some (JArr [JNum w; JNum h; JStr "%"]) ->
  ~ w == 0 -> ~ h == 0 ->
  getp (options st') "startSize"
    = JObj {[ "width" := JNum w; "height" := JNum h; "unit" := JStr "%" ]}
  /\ initialBox (options st') = Box.new 0 0 w h
  /\ (forall st1, construct opts d = Normal st1 ->
        field (getp (options st1) "startSize") "width" = JNum ((w / 100) * offsetWidth d)
        /\ field (getp (options st1) "startSize") "height" = JNum ((h / 100) * offsetHeight d)
        /\ field (getp (options st1) "startSize") "unit" = JUndefined).
Proof.
  intros C st st' Hr Hs Hw Hh.
  assert (Hk : "startSize" ∈ sizeKeys)
    by (unfold sizeKeys; do 2 apply list_elem_of_further; apply list_elem_of_here).
  destruct (setOptions_normal _ _ _ _ Hr) as (o & P & E).
  subst st'. rewrite E. cbn [fst snd options redraw perform set_box set_options].
  assert (Ho : getp o "startSize"
               = JObj {[ "width" := JNum w; "height" := JNum h; "unit" := JStr "%" ]}).
  { apply (parseOptions_size_value _ _ "startSize" Hk P).
    rewrite (getp_assign_source _ _ _ _ Hs).
    apply parseSize_percent_array; assumption. }
  split; [exact Ho|]. split.
  { unfold initialBox. rewrite Ho. reflexivity. }
  intros st1 C1. destruct (construct_options _ _ _ C1) as (o1 & P1 & ->).
  rewrite convertToPixels_size by exact Hk.
  rewrite (parseOptions_size_value _ _ "startSize" Hk P1
             {[ "width" := JNum w; "height" := JNum h; "unit" := JStr "%" ]}).
  - cbn [convertSize]. unfold field, getp. simplify_map_eq. auto.
  - rewrite (getp_lookup _ _ _ Hs). apply parseSize_percent_array; assumption.
Qed.

(** X5's theorem at [setOptions({returnMode: 'ratio'})] on [sampleCore]:
    the start size configured at construction is forgotten. *)
Lemma setOptions_forgets_witness :
  construct sampleOptions page100 = Normal sampleCore
  /\ fst (setOptions {[ "returnMode" := JStr "ratio" ]} page100 (run page100 sampleCore []))
     = Normal ReturnsUndefined
  /\ field (getp (options sampleCore) "startSize") "width" = JNum 50
  /\ initialBox (options (snd (setOptions {[ "returnMode" := JStr "ratio" ]} page100
                                          (run page100 sampleCore []))))
     = Box.new 0 0 0 0.
Proof.
  assert (H1 : construct sampleOptions page100 = Normal sampleCore)
    by exact sampleCore_constructed.
  assert (H2 : fst (setOptions {[ "returnMode" := JStr "ratio" ]} page100
                               (run page100 sampleCore [])) = Normal ReturnsUndefined)
    by (vm_compute; reflexivity).
  split; [exact H1|]. split; [exact H2|].
  split; [vm_compute; reflexivity|].
  destruct (setOptions_forgets_sizes_not_passed _ _ _ _ _ [] _ H1 H2)
    as (_ & _ & _ & _ & _ & Hb).
  apply Hb. vm_compute. reflexivity.
Defined.

(** X6's theorem at [setOptions({startSize: [50, 50, '%']})] on
    [sampleCore]. *)
Lemma setOptions_percent_witness :
  construct sampleOptions page100 = Normal sampleCore
  /\ fst (setOptions halfSizeOptions page100 (run page100 sampleCore []))
     = Normal ReturnsUndefined
  /\ halfSizeOptions !! "startSize" = Some (JArr [JNum 50; JNum 50; JStr "%"])
  /\ initialBox (options (snd (setOptions halfSizeOptions page100
                                          (run page100 sampleCore []))))
     = Box.new 0 0 50 50.
Proof.
  assert (H1 : construct sampleOptions page100 = Normal sampleCore)
    by exact sampleCore_constructed.
  assert (H2 : fst (setOptions halfSizeOptions page100 (run page100 sampleCore []))
               = Normal ReturnsUndefined)
    by (vm_compute; reflexivity).
  assert (H3 : halfSizeOptions !! "startSize" = Some (JArr [JNum 50; JNum 50; JStr "%"]))
    by (vm_compute; reflexivity).
  assert (H4 : ~ 50 == 0) by (intros H; discriminate H).
  split; [exact H1|]. split; [exact H2|]. split; [exact H3|].
  destruct (setOptions_does_not_convert_percent _ _ _ _ _ [] _ 50 50 H1 H2 H3 H4 H4)
    as (_ & Hb & _).
  exact Hb.
Defined.

(** ** Value projection *)

(** X7.  The mode that [getValue] is given is compared as it is: a
    string other than 'real', 'ratio' and 'raw' (for instance 'RAW',
    which [parseOptions] would accept as a return mode) makes it return
    [undefined]; the three names always give a value; no argument, or
    [null], means the configured return mode. *)
Theorem getValue_unknown_mode_is_undefined (s : string) (d : Dom) (st : Core) :
  (getValue (JStr s) d st = None <-> s <> "real" /\ s <> "ratio" /\ s <> "raw")
  /\ getValue JUndefined d st = getValue JNull d st
  /\ (forall m, getp (options st) "returnMode" = JStr m ->
        getValue JNull d st = getValue (JStr m) d st)
  /\ getValue (JStr "RAW") d st = None
  /\ parseReturnMode (JStr "RAW") = Normal (JStr "raw").
Proof.
  split; [|split; [reflexivity|split; [|split; reflexivity]]].
  - unfold getValue. cbn [looseEqStr].
    destruct (String.eqb s "real") eqn:E1; [apply String.eqb_eq in E1|apply String.eqb_neq in E1].
    { split; [discriminate|]. intros (H & _). contradiction. }
    destruct (String.eqb s "ratio") eqn:E2; [apply String.eqb_eq in E2|apply String.eqb_neq in E2].
    { split; [discriminate|]. intros (_ & H & _). contradiction. }
    destruct (String.eqb s "raw") eqn:E3; [apply String.eqb_eq in E3|apply String.eqb_neq in E3].
    { split; [discriminate|]. intros (_ & _ & H). contradiction. }
    split; auto.
  - intros m Hm. unfold getValue. rewrite Hm. reflexivity.
Qed.

Lemma Math_round_comp x y : x == y -> Math_round x = Math_round y.
Proof. intros H. unfold Math_round. apply Qfloor_comp. rewrite H. reflexivity. Qed.

Lemma unscaled_factor natural attr rendered :
  unscaled natural attr rendered -> qOr (qOr natural attr) rendered / rendered == 1.
Proof.
  intros (Hr & H).
  assert (E : qOr (qOr natural attr) rendered == rendered).
  { unfold qOr.
    destruct (Qeq_bool natural 0) eqn:En.
    - apply Qeq_bool_iff in En.
      destruct (Qeq_bool attr 0) eqn:Ea; [reflexivity | apply Qeq_bool_neq in Ea].
      destruct H as [H | (_ & [H | H])]; [|exact H|contradiction].
      rewrite En in H. symmetry in H. contradiction.
    - rewrite En. apply Qeq_bool_neq in En.
      destruct H as [H | (H & _)]; [exact H | contradiction]. }
  rewrite E. field. exact Hr.
Qed.

(** X8.  When the target is shown at its natural size (or has no natural
    size and its [width]/[height] are absent or equal to the rendered
    ones), the 'real' value is the 'raw' value. *)
Theorem real_value_is_raw_value_when_unscaled (d : Dom) (st : Core) :
  unscaled (naturalWidth d) (targetWidth d) (elementWidth d) ->
  unscaled (naturalHeight d) (targetHeight d) (elementHeight d) ->
  getValue (JStr "real") d st = getValue (JStr "raw") d st.
Proof.
  intros Hx Hy. apply unscaled_factor in Hx. apply unscaled_factor in Hy.
  unfold getValue. cbn [looseEqStr String.eqb Ascii.eqb Bool.eqb].
  change (String.eqb "real" "real") with true.
  change (String.eqb "raw" "real") with false.
  change (String.eqb "raw" "ratio") with false.
  change (String.eqb "raw" "raw") with true.
  cbv iota.
  f_equal. f_equal; do 2 f_equal; apply Math_round_comp; first [rewrite Hx | rewrite Hy]; ring.
Qed.

(** X8's theorem on [pageNatural]. *)
Lemma real_value_witness :
  unscaled (naturalWidth pageNatural) (targetWidth pageNatural) (elementWidth pageNatural)
  /\ unscaled (naturalHeight pageNatural) (targetHeight pageNatural)
              (elementHeight pageNatural)
  /\ getValue (JStr "real") pageNatural sampleCore
     = getValue (JStr "raw") pageNatural sampleCore.
Proof.
  assert (H : unscaled 100 100 100).
  { split; [intros H; discriminate H | left; reflexivity]. }
  split; [exact H|]. split; [exact H|].
  exact (real_value_is_raw_value_when_unscaled pageNatural sampleCore H H).
Defined.

Lemma Math_round_half x :
  Qabs (inject_Z (Math_round x) - x) <= 1 # 2.
Proof.
  destruct (Math_round_near x) as [H1 H2].
  apply Qabs_case; intros _; lra.
Qed.

(** X9.  The 'raw' value is the rectangle in whole pixels: each of [x],
    [y], [width], [height] is an integer within half a pixel of the
    rectangle's [x1], [y1], [width()], [height()], and the width and the
    height are not negative. *)
Theorem raw_value_is_rectangle_in_whole_pixels (d : Dom) (st : Core) :
  exists x y w h : Z,
    getValue (JStr "raw") d st
      = Some (CropValue.mk (inject_Z x) (inject_Z y) (inject_Z w) (inject_Z h))
    /\ Qabs (inject_Z x - Box.x1 (box st)) <= 1 # 2
    /\ Qabs (inject_Z y - Box.y1 (box st)) <= 1 # 2
    /\ Qabs (inject_Z w - Box.width (box st)) <= 1 # 2
    /\ Qabs (inject_Z h - Box.height (box st)) <= 1 # 2
    /\ (0 <= w)%Z /\ (0 <= h)%Z.
Proof.
  do 4 eexists. split; [reflexivity|].
  repeat split; try apply Math_round_half;
    apply Math_round_nonneg; [apply width_nonneg | apply height_nonneg].
Qed.

(** X10.  For a rectangle with ordered corners that lies inside the
    rendered target, each component of the 'ratio' value is decided by its
    quotient (a coordinate or an extent over the rendered width or height,
    between 0 and 1): [NaN] exactly when the quotient is positive and
    below [10^-6], and otherwise a multiple of 1/1000 between 0 and 1
    within 1/2000 of the quotient. *)
Theorem ratio_value_is_NaN_or_rounded_in_unit_interval (d : Dom) (st : Core) :
  0 < elementWidth d -> 0 < elementHeight d ->
  0 <= Box.x1 (box st) -> Box.x1 (box st) <= Box.x2 (box st) ->
  Box.x2 (box st) <= elementWidth d ->
  0 <= Box.y1 (box st) -> Box.y1 (box st) <= Box.y2 (box st) ->
  Box.y2 (box st) <= elementHeight d ->
  exists v, getValue (JStr "ratio") d st = Some v
    /\ ratioComponent (CropValue.x v) (Box.x1 (box st) / elementWidth d)
    /\ ratioComponent (CropValue.y v) (Box.y1 (box st) / elementHeight d)
    /\ ratioComponent (CropValue.width v) (Box.width (box st) / elementWidth d)
    /\ ratioComponent (CropValue.height v) (Box.height (box st) / elementHeight d).
Proof.
  intros Hw Hh X0 X1 X2 Y0 Y1 Y2.
  eexists. split; [reflexivity|].
  cbn [CropValue.x CropValue.y CropValue.width CropValue.height].
  assert (Bw : Box.width (box st) == Box.x2 (box st) - Box.x1 (box st))
    by (unfold Box.width; apply Qabs_pos; lra).
  assert (Bh : Box.height (box st) == Box.y2 (box st) - Box.y1 (box st))
    by (unfold Box.height; apply Qabs_pos; lra).
  assert (G : forall q, 0 <= q -> q <= 1 -> ratioComponent (round q 3) q).
  { intros q Q0 Q1. pose proof (round3_unit q Q0 Q1) as U.
    pose proof (round3_spec q) as S.
    unfold ratioComponent. destruct (round q 3) as [r|]; [|exact U].
    destruct U as (U1 & U2 & U3). destruct (S r eq_refl) as (S1 & S2).
    repeat split; assumption. }
  repeat split.
  all: apply G;
    [ apply Qle_shift_div_l; [assumption|lra]
    | apply Qle_shift_div_r; [assumption|lra] ].
Qed.

(** X10's theorem for the rectangle (10, 10, 60, 60) on [page100]. *)
Lemma ratio_value_witness :
  exists v, getValue (JStr "ratio") page100 (set_box (Box.new 10 10 60 60) blankCore)
            = Some v
            /\ ratioComponent (CropValue.width v) ((60 - 10) / 100).
Proof.
  destruct (ratio_value_is_NaN_or_rounded_in_unit_interval
              page100 (set_box (Box.new 10 10 60 60) blankCore))
    as (v & Hv & _ & _ & Hw & _);
    try reflexivity; try (intros H; discriminate H).
  exists v. split; [exact Hv | exact Hw].
Defined.

(** ** Handle drags *)

Lemma clampMouse_range m bound :
  0 <= bound -> 0 <= clampMouse m bound /\ clampMouse m bound <= bound.
Proof.
  intros Hb. unfold clampMouse. case_jsLt; split; lra.
Qed.

Lemma handles_one_edge_per_axis h :
  h ∈ HANDLES ->
  LEFT_MOVABLE h && RIGHT_MOVABLE h = false
  /\ TOP_MOVABLE h && BOTTOM_MOVABLE h = false.
Proof.
  unfold HANDLES. rewrite !elem_of_cons, elem_of_nil.
  intros H; decompose [or] H; subst; cbn; auto. contradiction.
Qed.

(** X11.  In a handle-drag step the pointer is first brought into the
    container ([0 <= x <= width], [0 <= y <= height]).  On an axis that
    the handle moves, the rectangle handed to the constraints spans from
    the captured anchor to the pointer, corners ordered, so it lies inside
    the container when the anchor does; on an axis that the handle does
    not move, it keeps the live rectangle's two coordinates. *)
Theorem handle_move_spans_anchor_to_pointer
    (a : ActiveHandle) (b : Box.Box) (d : Dom) (mouseX mouseY : Q) :
  handle a ∈ HANDLES ->
  0 <= containerWidth d -> 0 <= containerHeight d ->
  let h := handle a in
  let mx := fst (localMouse d mouseX mouseY) in
  let my := snd (localMouse d mouseX mouseY) in
  let fresh := fst (handleMoveNewBox a b d mouseX mouseY) in
  (0 <= mx /\ mx <= containerWidth d) /\ (0 <= my /\ my <= containerHeight d)
  /\ (LEFT_MOVABLE h || RIGHT_MOVABLE h = true ->
        Box.x1 fresh == Qmin (originX a) mx /\ Box.x2 fresh == Qmax (originX a) mx
        /\ (0 <= originX a -> originX a <= containerWidth d ->
            0 <= Box.x1 fresh /\ Box.x2 fresh <= containerWidth d))
  /\ (TOP_MOVABLE h || BOTTOM_MOVABLE h = true ->
        Box.y1 fresh == Qmin (originY a) my /\ Box.y2 fresh == Qmax (originY a) my
        /\ (0 <= originY a -> originY a <= containerHeight d ->
            0 <= Box.y1 fresh /\ Box.y2 fresh <= containerHeight d))
  /\ (LEFT_MOVABLE h || RIGHT_MOVABLE h = false ->
        Box.x1 fresh = Box.x1 b /\ Box.x2 fresh = Box.x2 b)
  /\ (TOP_MOVABLE h || BOTTOM_MOVABLE h = false ->
        Box.y1 fresh = Box.y1 b /\ Box.y2 fresh = Box.y2 b).
Proof.
  intros Hin Hw Hh. cbv zeta. unfold handleMoveNewBox, localMouse.
  destruct (handles_one_edge_per_axis _ Hin) as [Hlr Htb].
  destruct (clampMouse_range (mouseX - containerLeft d) (containerWidth d) Hw) as [Mx0 Mx1].
  destruct (clampMouse_range (mouseY - containerTop d) (containerHeight d) Hh) as [My0 My1].
  set (mx := clampMouse (mouseX - containerLeft d) (containerWidth d)) in *.
  set (my := clampMouse (mouseY - containerTop d) (containerHeight d)) in *.
  cbn [fst snd].
  split; [auto|]. split; [auto|].
  unfold isFlipped, handleEdges, applyFlip, boxOfEdges.
  destruct (originPoint a) as [ox oy].
  destruct (LEFT_MOVABLE (handle a)), (RIGHT_MOVABLE (handle a)),
    (TOP_MOVABLE (handle a)), (BOTTOM_MOVABLE (handle a));
    try discriminate Hlr; try discriminate Htb; cbn [orb fst snd].
  all: case_jsLt; cbn [fst snd Box.x1 Box.x2 Box.y1 Box.y2].
  all: repeat split; intros; try discriminate; try reflexivity.
  all: try (apply Q.min_case_strong || apply Q.max_case_strong); intros; try lra.
  all: try (symmetry; (apply Q.min_l || apply Q.min_r || apply Q.max_l || apply Q.max_r); lra).
Qed.

(** X12.  Throughout a drag of one of the eight handles, with the origin
    that [onHandleMoveStart] records (the handle's opposite point), the
    origin point of the rectangle handed to the constraints is at the
    captured coordinate on every axis that the handle moves, flipped or
    not: the side or corner opposite to the handle stays where it was
    when the drag began. *)
Theorem anchor_stays_at_captured_coordinate
    (a : ActiveHandle) (b : Box.Box) (d : Dom) (mouseX mouseY : Q) :
  handle a ∈ HANDLES ->
  originPoint a = (1 - fst (position (handle a)), 1 - snd (position (handle a))) ->
  let h := handle a in
  let fresh := fst (handleMoveNewBox a b d mouseX mouseY) in
  let origin := snd (handleMoveNewBox a b d mouseX mouseY) in
  (LEFT_MOVABLE h || RIGHT_MOVABLE h = true ->
     fst (Box.getAbsolutePoint origin fresh) == originX a)
  /\ (TOP_MOVABLE h || BOTTOM_MOVABLE h = true ->
     snd (Box.getAbsolutePoint origin fresh) == originY a).
Proof.
  intros Hin Ho. cbv zeta. unfold handleMoveNewBox.
  destruct (localMouse d mouseX mouseY) as [mx my].
  unfold isFlipped, handleEdges, applyFlip, boxOfEdges.
  rewrite Ho. clear Ho.
  destruct a as [h op oX oY]. cbn [handle originX originY] in *.
  unfold HANDLES in Hin. rewrite !elem_of_cons, elem_of_nil in Hin.
  decompose [or] Hin; try contradiction; subst h;
    cbn [LEFT_MOVABLE RIGHT_MOVABLE TOP_MOVABLE BOTTOM_MOVABLE movable constraints
         position nth Z.eqb Pos.eqb orb fst snd].
  all: case_jsLt; cbn [fst snd Box.x1 Box.x2 Box.y1 Box.y2 Box.getAbsolutePoint].
  all: split; intros; try discriminate; ring.
Qed.

(** X11's theorem at a drag of the south handle of the rectangle
    (25, 25, 75, 75) down to y = 90: the top edge stays at the anchor. *)
Lemma handle_move_witness :
  handle southDrag ∈ HANDLES
  /\ 0 <= containerWidth page100
  /\ Box.y1 (fst (handleMoveNewBox southDrag (Box.new 25 25 75 75) page100 50 90)) == 25.
Proof.
  assert (H1 : handle southDrag ∈ HANDLES).
  { unfold HANDLES. do 5 apply list_elem_of_further. apply list_elem_of_here. }
  assert (H2 : 0 <= containerWidth page100) by (intros H; discriminate H).
  split; [exact H1|]. split; [exact H2|].
  destruct (handle_move_spans_anchor_to_pointer southDrag (Box.new 25 25 75 75)
              page100 50 90 H1 H2 H2) as (_ & _ & _ & Hy & _).
  destruct (Hy eq_refl) as (Hy1 & _). rewrite Hy1. reflexivity.
Defined.

(** X12's theorem at a drag of the same handle up to y = 10, past the
    anchor: the origin point is still at y = 25. *)
Lemma anchor_stays_witness :
  handle southDrag ∈ HANDLES
  /\ originPoint southDrag
     = (1 - fst (position (handle southDrag)), 1 - snd (position (handle southDrag)))
  /\ snd (Box.getAbsolutePoint
            (snd (handleMoveNewBox southDrag (Box.new 25 25 75 75) page100 50 10))
            (fst (handleMoveNewBox southDrag (Box.new 25 25 75 75) page100 50 10)))
     == 25.
Proof.
  assert (H1 : handle southDrag ∈ HANDLES).
  { unfold HANDLES. do 5 apply list_elem_of_further. apply list_elem_of_here. }
  assert (H2 : originPoint southDrag
               = (1 - fst (position (handle southDrag)),
                  1 - snd (position (handle southDrag)))).
  { vm_compute. reflexivity. }
  split; [exact H1|]. split; [exact H2|].
  destruct (anchor_stays_at_captured_coordinate southDrag (Box.new 25 25 75 75)
              page100 50 10 H1 H2) as (_ & Hy).
  exact (Hy eq_refl).
Defined.

(** ** Region drags *)

Lemma regionClamp_inside d b :
  Box.x1 b <= Box.x2 b -> Box.y1 b <= Box.y2 b ->
  let c := regionClamp d b in
  (Box.x2 b - Box.x1 b <= containerWidth d -> 0 <= Box.x1 c /\ Box.x2 c <= containerWidth d)
  /\ (Box.y2 b - Box.y1 b <= containerHeight d ->
        0 <= Box.y1 c /\ Box.y2 c <= containerHeight d)
  /\ (containerWidth d < Box.x2 b - Box.x1 b -> Box.x2 c == containerWidth d)
  /\ (containerHeight d < Box.y2 b - Box.y1 b -> Box.y2 c == containerHeight d).
Proof.
  intros Hx Hy. cbv zeta. unfold regionClamp.
  destruct b as [bx1 by1 bx2 by2]; cbn [Box.x1 Box.x2 Box.y1 Box.y2] in *.
  repeat split; intros.
  all: unfold Box.move, Box.width, Box.height; clamp_cases.
  all: try lra.
  all: try (rewrite Qabs_pos in * by lra; lra).
Qed.

(** X13.  A region-drag move step keeps an ordered rectangle ordered
    and, along each axis on which the rectangle is not longer than the
    container, inside the container; a rectangle that is longer than the
    container along an axis ends with its right (bottom) edge on the
    container's. *)
Theorem region_drag_stays_inside_container
    (d : Dom) (st : Core) (mouseX mouseY : Q) (offset : Q * Q) :
  currentMove st = Some offset ->
  Box.x1 (box st) <= Box.x2 (box st) ->
  Box.y1 (box st) <= Box.y2 (box st) ->
  let b := box st in
  let b' := box (onRegionMoveMoving mouseX mouseY d st) in
  Box.x1 b' <= Box.x2 b' /\ Box.y1 b' <= Box.y2 b'
  /\ (Box.x2 b - Box.x1 b <= containerWidth d ->
        0 <= Box.x1 b' /\ Box.x2 b' <= containerWidth d)
  /\ (Box.y2 b - Box.y1 b <= containerHeight d ->
        0 <= Box.y1 b' /\ Box.y2 b' <= containerHeight d)
  /\ (containerWidth d < Box.x2 b - Box.x1 b -> Box.x2 b' == containerWidth d)
  /\ (containerHeight d < Box.y2 b - Box.y1 b -> Box.y2 b' == containerHeight d).
Proof.
  intros Hm Hx Hy b b'.
  assert (Eb : b' = regionClamp d (regionTranslate offset d mouseX mouseY b)).
  { subst b'. unfold onRegionMoveMoving. rewrite Hm. apply listener_fire_box. }
  set (t := regionTranslate offset d mouseX mouseY b) in *.
  assert (Tx : Box.x2 t - Box.x1 t == Box.x2 b - Box.x1 b) by apply move_extent_x.
  assert (Ty : Box.y2 t - Box.y1 t == Box.y2 b - Box.y1 b) by apply move_extent_y.
  destruct (regionClamp_extent d t) as [Cx Cy].
  assert (Hxt : Box.x1 t <= Box.x2 t) by (subst b; lra).
  assert (Hyt : Box.y1 t <= Box.y2 t) by (subst b; lra).
  destruct (regionClamp_inside d t Hxt Hyt) as (I1 & I2 & I3 & I4).
  rewrite Eb.
  split; [subst b; lra|]. split; [subst b; lra|].
  split; [intros H; apply I1; lra|]. split; [intros H; apply I2; lra|].
  split; [intros H; apply I3; lra | intros H; apply I4; lra].
Qed.

(** X14.  From the start of a region drag, a move step puts the
    rectangle's first corner where it was at the start plus the pointer's
    displacement since then (before the edge comparisons), wherever the
    container is on the page, and keeps its width and height. *)
Theorem region_drag_follows_pointer (d : Dom) (st : Core) (px py qx qy : Q) :
  let st1 := onRegionMoveStart px py d st in
  exists offset,
    currentMove st1 = Some offset
    /\ let moved := regionTranslate offset d qx qy (box st1) in
       Box.x1 moved == Box.x1 (box st) + (qx - px)
       /\ Box.y1 moved == Box.y1 (box st) + (qy - py)
       /\ Box.width moved == Box.width (box st)
       /\ Box.height moved == Box.height (box st).
Proof.
  cbv zeta. unfold onRegionMoveStart.
  match goal with |- context [listener ?s (fire ?n d ?s)] =>
    destruct (listener_fire_frame n d s) as (_ & Hb & _ & Hc & _) end.
  rewrite Hc, Hb. cbn [currentMove set_currentMove box].
  eexists. split; [reflexivity|].
  split; [|split; [|split]].
  - unfold regionTranslate, Box.move. cbn [fst snd Box.x1]. ring.
  - unfold regionTranslate, Box.move. cbn [fst snd Box.y1]. ring.
  - apply move_width.
  - apply move_height.
Qed.

(** X13's theorem for the rectangle (25, 25, 75, 75) on [page100],
    grabbed with offset (5, 5) and dragged to (200, 40). *)
Lemma region_inside_witness :
  let st := set_currentMove (5, 5) (set_box (Box.new 25 25 75 75) blankCore) in
  currentMove st = Some (5, 5)
  /\ Box.x2 (box (onRegionMoveMoving 200 40 page100 st)) <= 100.
Proof.
  cbv zeta.
  set (st := set_currentMove (5, 5) (set_box (Box.new 25 25 75 75) blankCore)).
  assert (H1 : currentMove st = Some (5, 5)) by reflexivity.
  assert (H2 : Box.x1 (box st) <= Box.x2 (box st)) by (intros H; discriminate H).
  assert (H3 : Box.y1 (box st) <= Box.y2 (box st)) by (intros H; discriminate H).
  split; [exact H1|].
  destruct (region_drag_stays_inside_container page100 st 200 40 (5, 5) H1 H2 H3)
    as (_ & _ & Hx & _).
  apply Hx. intros H; discriminate H.
Defined.

(** ** Move steps, clicks and the initial rectangle *)


Lemma initializeBox_is_move opts d :
  exists b3,
    initializeBox opts d
    = Box.move (Some (offsetWidth d / 2 - Box.width b3 / 2))
               (Some (offsetHeight d / 2 - Box.height b3 / 2)) b3.
Proof.
  eexists.
  unfold initializeBox, resultBox, initializeBoxProg, mbind, BoxProg_bind, call, this_box.
  cbn [fst snd applyCall]. reflexivity.
Qed.

(** X17.  The rectangle that [initializeBox] returns (at construction,
    on [reset] and on [setOptions]) has its first corner at the
    container's centre minus half its own size; with ordered corners, its
    centre is the container's centre. *)
Theorem initial_rectangle_is_centred (opts : gmap string JsVal) (d : Dom) :
  let b := initializeBox opts d in
  Box.x1 b == offsetWidth d / 2 - Box.width b / 2
  /\ Box.y1 b == offsetHeight d / 2 - Box.height b / 2
  /\ (Box.x1 b <= Box.x2 b -> (Box.x1 b + Box.x2 b) / 2 == offsetWidth d / 2)
  /\ (Box.y1 b <= Box.y2 b -> (Box.y1 b + Box.y2 b) / 2 == offsetHeight d / 2).
Proof.
  cbv zeta. destruct (initializeBox_is_move opts d) as [b ->].
  set (m := Box.move (Some (offsetWidth d / 2 - Box.width b / 2))
                     (Some (offsetHeight d / 2 - Box.height b / 2)) b).
  assert (Hw : Box.width m == Box.width b) by apply move_width.
  assert (Hh : Box.height m == Box.height b) by apply move_height.
  assert (H1 : Box.x1 m == offsetWidth d / 2 - Box.width b / 2)
    by (subst m; unfold Box.move; cbn [Box.x1]; ring).
  assert (H2 : Box.y1 m == offsetHeight d / 2 - Box.height b / 2)
    by (subst m; unfold Box.move; cbn [Box.y1]; ring).
  split; [rewrite Hw; exact H1|]. split; [rewrite Hh; exact H2|].
  split; intros Ho.
  - assert (E : Box.width m == Box.x2 m - Box.x1 m)
      by (unfold Box.width; apply Qabs_pos; lra).
    rewrite <- Hw in H1. rewrite E in H1. unfold Qdiv in *. change (/ 2) with (1 # 2) in *. lra.
  - assert (E : Box.height m == Box.y2 m - Box.y1 m)
      by (unfold Box.height; apply Qabs_pos; lra).
    rewrite <- Hh in H2. rewrite E in H2. unfold Qdiv in *. change (/ 2) with (1 # 2) in *. lra.
Qed.

(** ** The constructor, the aspect ratio and the conversion to pixels *)

(** X18.  The constructor (for an element that is found and loaded)
    throws exactly when [parseOptions] does, with the same error.
    Otherwise the instance starts with the rectangle that [initializeBox]
    gives for the converted options and with no drag in progress; it has
    requested one render and then called [onInitialize], if that is a
    function, and no other callback. *)
Theorem constructor_fails_only_with_parseOptions (opts : gmap string JsVal) (d : Dom) :
  (forall e, construct opts d = Throw e <-> parseOptions opts = Throw e)
  /\ (forall st, construct opts d = Normal st ->
        box st = initializeBox (options st) d
        /\ activeHandle st = None /\ currentMove st = None
        /\ overlayListening st = false
        /\ (forall f, getp opts "onInitialize" = JFun f ->
              effects st = [redrawOf (box st); Initialized f])
        /\ ((forall f, getp opts "onInitialize" <> JFun f) ->
              effects st = [redrawOf (box st)])).
Proof.
  unfold construct.
  destruct (parseOptions opts) as [o|e0] eqn:P.
  - destruct (parseOptions_inv _ _ P) as (rm & _ & _ & _ & Hc).
    pose proof (Hc OnInitialize) as Hi. cbn [callbackKey] in Hi.
    rewrite (convertToPixels_other d o "onInitialize")
      by apply (callbackKey_not_size OnInitialize).
    rewrite Hi.
    destruct (getp opts "onInitialize") eqn:E; cbn [parseCallback].
    all: split; [intros e; split; intros H; discriminate H|].
    all: intros st H; injection H as <-.
    all: cbn [box options activeHandle currentMove overlayListening effects
              redraw perform app].
    all: repeat split; try reflexivity.
    all: try (intros f0 Hf; discriminate Hf).
    + intros f0 Hf. injection Hf as ->. reflexivity.
    + intros Hn. exfalso. apply (Hn f). reflexivity.
  - split.
    + intros e. split; intros H; injection H as ->; reflexivity.
    + intros st H. discriminate H.
Qed.

Lemma parseOptions_parsedOptions (opts : gmap string JsVal) :
  getp opts "returnMode" = JUndefined -> parseOptions opts = Normal (parsedOptions opts).
Proof.
  intros H. unfold parsedOptions, parseOptions. rewrite H. reflexivity.
Qed.

(** X19.  The aspect ratio option: a number is taken as it is; an array
    [[w, h, ...]] of numbers with [w] not zero gives [h / w] (height over
    width; further entries are ignored); a string, a boolean, a function,
    an object or [null] is ignored without an error, and the ratio is
    [null] as when none is given. *)
Theorem aspectRatio_is_number_or_height_over_width (opts o : gmap string JsVal) :
  parseOptions opts = Normal o ->
  (forall q, getp opts "aspectRatio" = JNum q -> getp o "aspectRatio" = JNum q)
  /\ (forall w h rest, getp opts "aspectRatio" = JArr (JNum w :: JNum h :: rest) ->
        ~ w == 0 -> getp o "aspectRatio" = JNum (h / w))
  /\ (getp opts "aspectRatio" = JUndefined -> getp o "aspectRatio" = JNull)
  /\ (forall v, getp opts "aspectRatio" = v ->
        match v with
        | JNull | JBool _ | JStr _ | JFun _ | JObj _ => getp o "aspectRatio" = JNull
        | _ => True
        end).
Proof.
  intros P. destruct (parseOptions_inv _ _ P) as (rm & _ & Ha & _).
  rewrite Ha. repeat split.
  - intros q ->. reflexivity.
  - intros w h rest -> Hw. cbn [parseAspectRatio index nth jsDiv].
    destruct (Qeq_bool w 0) eqn:E; [apply Qeq_bool_iff in E; contradiction|].
    reflexivity.
  - intros ->. reflexivity.
  - intros v ->. destruct v; try exact I; reflexivity.
Qed.

(** X19's theorem at [{aspectRatio: [16, 9]}]: the ratio is 9/16. *)
Lemma aspectRatio_witness :
  parseOptions wideOptions = Normal (parsedOptions wideOptions)
  /\ getp (parsedOptions wideOptions) "aspectRatio" = JNum (9 / 16).
Proof.
  assert (H : parseOptions wideOptions = Normal (parsedOptions wideOptions))
    by (apply parseOptions_parsedOptions; vm_compute; reflexivity).
  split; [exact H|].
  destruct (aspectRatio_is_number_or_height_over_width _ _ H) as (_ & Hr & _).
  apply (Hr 16 9 []).
  - vm_compute. reflexivity.
  - intros E; discriminate E.
Defined.

Lemma convertSize_idempotent w h w' h' v :
  convertSize w' h' (convertSize w h v) = convertSize w h v.
Proof.
  destruct v; try reflexivity. cbn [convertSize].
  set (m := if looseEqStr (getp o "unit") "%" then _ else o).
  assert (E : getp (delete "unit" m) "unit" = JUndefined)
    by (unfold getp; rewrite lookup_delete_eq; reflexivity).
  rewrite E. cbn [looseEqStr]. rewrite delete_delete_eq. reflexivity.
Qed.

(** X20.  The conversion to pixels of parsed options: every size loses
    its [unit]; a size whose unit is '%' has its width and height numbers
    replaced by that percentage of the container's offset width and
    height; a size with any other unit keeps its width and height; the
    other options are not touched; and converting again, for whatever
    container, changes nothing more. *)
Theorem convertToPixels_scales_percent_sizes_once
    (opts o : gmap string JsVal) (d : Dom) (key : string) :
  parseOptions opts = Normal o ->
  key ∈ sizeKeys ->
  let v := getp o key in
  let v' := getp (convertToPixels d o) key in
  field v' "unit" = JUndefined
  /\ (field v "unit" = JStr "%" ->
        (forall q, field v "width" = JNum q ->
           field v' "width" = JNum ((q / 100) * offsetWidth d))
        /\ (forall q, field v "height" = JNum q ->
           field v' "height" = JNum ((q / 100) * offsetHeight d)))
  /\ (looseEqStr (field v "unit") "%" = false ->
        field v' "width" = field v "width" /\ field v' "height" = field v "height")
  /\ (forall k, k ∉ sizeKeys -> getp (convertToPixels d o) k = getp o k)
  /\ (forall d' k, getp (convertToPixels d' (convertToPixels d o)) k
                   = getp (convertToPixels d o) k).
Proof.
  intros P Hk v v'.
  destruct (parseOptions_size_obj opts o key Hk P) as [m Hm].
  subst v v'. rewrite (convertToPixels_size d o key Hk). rewrite Hm.
  cbn [convertSize field].
  split; [|split; [|split; [|split]]].
  - unfold getp. rewrite lookup_delete_eq. reflexivity.
  - intros Hu. rewrite Hu. cbn [looseEqStr].
    change (String.eqb "%" "%") with true. cbv iota.
    split; intros q Hq; unfold getp in *; simplify_map_eq; rewrite Hq; reflexivity.
  - intros Hu. rewrite Hu. unfold getp. simplify_map_eq. auto.
  - intros k Hn. apply convertToPixels_other, Hn.
  - intros d' k. destruct (decide (k ∈ sizeKeys)) as [Hin | Hn].
    + rewrite !convertToPixels_size by exact Hin. apply convertSize_idempotent.
    + rewrite (convertToPixels_other d' _ k Hn). reflexivity.
Qed.

(** X20's theorem at the default start size (no options given): 100
    percent of the 100x100 container. *)
Lemma convertToPixels_witness :
  parseOptions ∅ = Normal (parsedOptions ∅)
  /\ "startSize" ∈ sizeKeys
  /\ field (getp (convertToPixels page100 (parsedOptions ∅)) "startSize") "width"
     = JNum ((100 / 100) * offsetWidth page100).
Proof.
  assert (H1 : parseOptions ∅ = Normal (parsedOptions ∅))
    by (apply parseOptions_parsedOptions; vm_compute; reflexivity).
  assert (H2 : "startSize" ∈ sizeKeys)
    by (unfold sizeKeys; do 2 apply list_elem_of_further; apply list_elem_of_here).
  split; [exact H1|]. split; [exact H2|].
  destruct (convertToPixels_scales_percent_sizes_once _ _ page100 _ H1 H2)
    as (_ & Hp & _).
  destruct Hp as [Hw _]; [vm_compute; reflexivity|].
  apply Hw. vm_compute. reflexivity.
Defined.
